(** * JzSE: cross-region synchronisation and conflict resolution

    A shallow embedding of the Go packages that carry the synchronisation
    core of JzSE, and the properties proved about them:

    - [regionmeta]  internal/region/metadata      (FileMetadata, CompareClock)
    - [metadata]    internal/coordinator/metadata (EtcdManager)
    - [conflict]    internal/coordinator/conflict (Resolver)
    - [registry]    internal/coordinator/registry (Registry, checkHealth)
    - [coordsync]   internal/coordinator/sync     (Engine)
    - [regionsync]  internal/region/sync          (ChangeQueue, Agent)

    Conventions.  A Go map is a [gmap]; a map that may be nil is an
    [option] of one.  A field keeps its Go name; where that name is taken
    in its module, or reserved, it ends in an underscore.  A pointer to a struct that the code dereferences
    without a nil test is modelled by the struct it points to.  Mutation
    through a receiver is explicit state passing: a method returns the new
    receiver next to its Go results.  [time.Now()] is an argument.  Calls to
    the zap logger are left out, except in the sync agent, where the log is
    the only place a dropped event shows. *)

From Stdlib Require Import ZArith NArith Floats.PrimFloat.
From stdpp Require Import base gmap sets list strings fin_maps.

Local Open Scope Z_scope.

(** ** Machine integers and package time *)

Module goint.

(** Go's [int] on the 64-bit targets the service is built for. *)
Definition bits : Z := 64.
Definition minInt : Z := - 2 ^ (bits - 1).
Definition maxInt : Z := 2 ^ (bits - 1) - 1.

(** Two's complement wrap-around into [minInt, maxInt]. *)
Definition wrap (z : Z) : Z :=
  (z - minInt) mod 2 ^ bits + minInt.

(** [x++] on an [int]. *)
Definition incr (x : Z) : Z := wrap (x + 1).

End goint.

Module time.

(** An instant, by its count of nanoseconds on the clock that the
    comparison reads. *)
Definition Time : Type := Z.

(** [time.Duration] is an int64 count of nanoseconds. *)
Definition Duration : Type := Z.

Definition minDuration : Duration := - 2 ^ 63.
Definition maxDuration : Duration := 2 ^ 63 - 1.

Definition Nanosecond : Duration := 1.
Definition Second : Duration := 1000000000 * Nanosecond.
Definition Minute : Duration := 60 * Second.
Definition Hour : Duration := 60 * Minute.

(** [t.After(u)]. *)
Definition After (t u : Time) : bool := bool_decide (u < t).

(** [t.Sub(u)]: the difference, saturated to the range of Duration. *)
Definition Sub (t u : Time) : Duration :=
  let d := t - u in
  if bool_decide (d < minDuration) then minDuration
  else if bool_decide (maxDuration < d) then maxDuration
  else d.

End time.

(** ** internal/common/errors: the sentinel errors *)

Module errors.

Inductive error : Type :=
| ErrNotFound
| ErrAlreadyExists
| ErrStorageFull
| ErrSyncFailed
| ErrSyncTimeout
| ErrConflict
| ErrQueueFull
| ErrInvalidMetadata
| ErrVersionMismatch
| ErrRegionOffline
| ErrRegionUnavailable
| ErrCoordinatorUnavailable
| ErrNoHealthyRegion
| ErrUnauthorized
| ErrForbidden
| ErrInvalidInput.

#[global] Instance error_eq_dec : EqDecision error.
Proof. solve_decision. Defined.

End errors.

(** ** internal/region/metadata: file metadata and its vector clock *)

Module regionmeta.

Definition LocalState : Type := string.
Definition LocalStatePresent : LocalState := "present".
Definition LocalStatePending : LocalState := "pending".
Definition LocalStateDeleted : LocalState := "deleted".

Definition SyncState : Type := string.
Definition SyncStateSynced : SyncState := "synced".
Definition SyncStatePending : SyncState := "pending".
Definition SyncStateConflict : SyncState := "conflict".

(** [map[string]uint64], possibly nil.  Counters are naturals below
    2^64; CompareClock only compares them. *)
Abbreviation VClock := (option (gmap string N)).

Record FileMetadata : Type := mkFileMetadata {
  ID : string;
  Name : string;
  Path : string;
  Size : Z;
  ContentHash : string;
  MimeType : string;
  Version : Z;
  VectorClock : VClock;
  OwnerID : string;
  CreatedAt : time.Time;
  UpdatedAt : time.Time;
  CreatedBy : string;
  UpdatedBy : string;
  OriginRegion : string;
  LocalState_ : LocalState;
  SyncState_ : SyncState;
  CustomMeta : option (gmap string string)
}.

(** The zero value of the struct. *)
Definition zero : FileMetadata :=
  {| ID := ""; Name := ""; Path := ""; Size := 0; ContentHash := "";
     MimeType := ""; Version := 0; VectorClock := None; OwnerID := "";
     CreatedAt := 0; UpdatedAt := 0; CreatedBy := ""; UpdatedBy := "";
     OriginRegion := ""; LocalState_ := ""; SyncState_ := "";
     CustomMeta := None |}.

Inductive ClockRelation : Type :=
| ClockBefore
| ClockAfter
| ClockEqual
| ClockConcurrent.

#[global] Instance ClockRelation_eq_dec : EqDecision ClockRelation.
Proof. solve_decision. Defined.

(** [m[k]] on a non-nil map: the zero value when the key is absent. *)
Definition at_key (m : gmap string N) (k : string) : N :=
  default 0%N (m !! k).

(** One iteration of the comparison loop of CompareClock, on the pair
    (lessThan, greaterThan). *)
Definition compareStep (m other : gmap string N) (k : string)
    (flags : bool * bool) : bool * bool :=
  let v1 := at_key m k in
  let v2 := at_key other k in
  if (v1 <? v2)%N then (true, flags.2)
  else if (v2 <? v1)%N then (flags.1, true)
  else flags.

(** The loop [for k := range allKeys], over the keys in the order [ks]
    in which the range statement yields them. *)
Fixpoint compareLoop (m other : gmap string N) (ks : list string)
    (flags : bool * bool) : bool * bool :=
  match ks with
  | [] => flags
  | k :: ks' => compareLoop m other ks' (compareStep m other k flags)
  end.

(** The final [switch] of CompareClock. *)
Definition relationOf (flags : bool * bool) : ClockRelation :=
  match flags with
  | (true, true) => ClockConcurrent
  | (true, false) => ClockBefore
  | (false, true) => ClockAfter
  | (false, false) => ClockEqual
  end.

(** [allKeys]: the keys of either map. *)
Definition allKeys (m other : gmap string N) : gset string :=
  dom m ∪ dom other.

(** The body of CompareClock on the receiver's clock and the argument;
    the range statement yields the keys of [allKeys] in the order of
    [elements]. *)
Definition compareClocks (vc other : VClock) : ClockRelation :=
  match vc, other with
  | None, None => ClockEqual
  | None, Some _ => ClockBefore
  | Some _, None => ClockAfter
  | Some m, Some o =>
      relationOf (compareLoop m o (elements (allKeys m o)) (false, false))
  end.

(** [func (m *FileMetadata) CompareClock(other map[string]uint64)]. *)
Definition CompareClock (m : FileMetadata) (other : VClock) : ClockRelation :=
  compareClocks (VectorClock m) other.

(** [x + 1] on a uint64 counter and on an int64. *)
Definition uint64_incr (v : N) : N := ((v + 1) mod 2 ^ 64)%N.
Definition int64_incr (z : Z) : Z := (z + 1 + 2 ^ 63) mod 2 ^ 64 - 2 ^ 63.

(** [NewFileMetadata]; [now] is its reading of the clock. *)
Definition NewFileMetadata (id name path : string) (now : time.Time)
    : FileMetadata :=
  {| ID := id; Name := name; Path := path; Size := 0; ContentHash := "";
     MimeType := ""; Version := 1; VectorClock := Some ∅; OwnerID := "";
     CreatedAt := now; UpdatedAt := now; CreatedBy := ""; UpdatedBy := "";
     OriginRegion := ""; LocalState_ := LocalStatePresent;
     SyncState_ := SyncStatePending; CustomMeta := Some ∅ |}.

(** The clock after [if m.VectorClock == nil { m.VectorClock = make(...) }]. *)
Definition madeClock (vc : VClock) : gmap string N := default ∅ vc.

(** The metadata with its clock, version and update time replaced. *)
Definition with_versioning (m : FileMetadata) (vc : VClock) (version : Z)
    (updatedAt : time.Time) : FileMetadata :=
  {| ID := ID m; Name := Name m; Path := Path m; Size := Size m;
     ContentHash := ContentHash m; MimeType := MimeType m;
     Version := version; VectorClock := vc; OwnerID := OwnerID m;
     CreatedAt := CreatedAt m; UpdatedAt := updatedAt;
     CreatedBy := CreatedBy m; UpdatedBy := UpdatedBy m;
     OriginRegion := OriginRegion m; LocalState_ := LocalState_ m;
     SyncState_ := SyncState_ m; CustomMeta := CustomMeta m |}.

(** [IncrementClock]; [now] is its reading of the clock. *)
Definition IncrementClock (m : FileMetadata) (regionID : string)
    (now : time.Time) : FileMetadata :=
  let vc := madeClock (VectorClock m) in
  let vc := <[regionID := uint64_incr (at_key vc regionID)]> vc in
  with_versioning m (Some vc) (int64_incr (Version m)) now.

(** A Go map value is a reference to a map object, and IncrementClock
    writes into the object: a struct copy of a metadata ([copy := *m])
    keeps the reference and sees the write.  [Maps] holds the map objects
    by address. *)
Abbreviation Maps := (gmap nat (gmap string N)).

(** A FileMetadata struct whose VectorClock field is the reference
    [clockAt], None for nil; the clock of [fields] stands for nothing. *)
Record MetadataRef : Type := mkMetadataRef {
  fields : FileMetadata;
  clockAt : option nat
}.

(** The clock a struct reads through its reference. *)
Definition clockOf (h : Maps) (m : MetadataRef) : VClock :=
  match clockAt m with
  | None => None
  | Some l => h !! l
  end.

(** The struct with the contents of its clock in place of the
    reference. *)
Definition deref (h : Maps) (m : MetadataRef) : FileMetadata :=
  with_versioning (fields m) (clockOf h m) (Version (fields m))
    (UpdatedAt (fields m)).

(** IncrementClock on the map objects and the struct of the receiver:
    [make] takes a fresh address, [m.VectorClock[regionID]++] updates the
    object in place, Version and UpdatedAt are fields of the struct. *)
Definition IncrementClockIn (h : Maps) (m : MetadataRef) (regionID : string)
    (now : time.Time) : Maps * MetadataRef :=
  let l := match clockAt m with
           | Some l => l
           | None => fresh (dom h)
           end in
  let h := match clockAt m with
           | Some _ => h
           | None => <[l := ∅]> h
           end in
  let c := default ∅ (h !! l) in
  (<[l := <[regionID := uint64_incr (at_key c regionID)]> c]> h,
   {| fields := with_versioning (fields m) (VectorClock (fields m))
                  (int64_incr (Version (fields m))) now;
      clockAt := Some l |}).

(** One iteration of the loop of MergeClock, for the entry [k, v]. *)
Definition mergeStep (vc : gmap string N) (kv : string * N) : gmap string N :=
  if (at_key vc kv.1 <? kv.2)%N then <[kv.1 := kv.2]> vc else vc.

(** The loop [for k, v := range other], over the entries in the order in
    which the range statement yields them. *)
Definition mergeLoop (vc : gmap string N) (entries : list (string * N))
    : gmap string N :=
  foldl mergeStep vc entries.

(** The entries of a map that may be nil; a range over nil yields none. *)
Definition entriesOf (other : VClock) : list (string * N) :=
  match other with
  | None => []
  | Some o => map_to_list o
  end.

Definition MergeClock (m : FileMetadata) (other : VClock) : FileMetadata :=
  let vc := madeClock (VectorClock m) in
  with_versioning m (Some (mergeLoop vc (entriesOf other)))
    (Version m) (UpdatedAt m).

(** Two notions used to state properties of CompareClock: some counter of
    [m] is strictly below the counter of [o] at the same key (a missing key
    reads 0), and the relation as seen from the other clock. *)
Definition someLess (m o : gmap string N) : Prop :=
  ∃ k, (at_key m k < at_key o k)%N.

Definition converse (rel : ClockRelation) : ClockRelation :=
  match rel with
  | ClockBefore => ClockAfter
  | ClockAfter => ClockBefore
  | ClockEqual => ClockEqual
  | ClockConcurrent => ClockConcurrent
  end.

End regionmeta.

(** ** internal/coordinator/metadata: the global metadata manager *)

Module metadata.

Record RegionLocation : Type := mkRegionLocation {
  RegionID : string;
  State : string;
  LastSyncAt : time.Time
}.

(** GlobalFileMetadata embeds FileMetadata; the promoted fields are read
    through [FileMetadata]. *)
Record GlobalFileMetadata : Type := mkGlobalFileMetadata {
  FileMetadata : regionmeta.FileMetadata;
  Locations : list RegionLocation;
  Primary : string;
  Replicas : Z
}.

Definition ID (g : GlobalFileMetadata) : string :=
  regionmeta.ID (FileMetadata g).
Definition Name (g : GlobalFileMetadata) : string :=
  regionmeta.Name (FileMetadata g).
Definition Path (g : GlobalFileMetadata) : string :=
  regionmeta.Path (FileMetadata g).
Definition VectorClock (g : GlobalFileMetadata) : regionmeta.VClock :=
  regionmeta.VectorClock (FileMetadata g).
Definition UpdatedAt (g : GlobalFileMetadata) : time.Time :=
  regionmeta.UpdatedAt (FileMetadata g).
Definition CompareClock (g : GlobalFileMetadata) (other : regionmeta.VClock)
    : regionmeta.ClockRelation :=
  regionmeta.CompareClock (FileMetadata g) other.

(** The zero value [GlobalFileMetadata{}]. *)
Definition zero : GlobalFileMetadata :=
  {| FileMetadata := regionmeta.zero; Locations := []; Primary := "";
     Replicas := 0 |}.

(** [type Manager interface]: each method takes the manager and returns
    it next to its results. *)
Class Manager (M : Type) : Type := {
  Get : M → string → option GlobalFileMetadata * option errors.error;
  Update : M → GlobalFileMetadata → option errors.error * M;
  Register : M → GlobalFileMetadata → option errors.error * M;
  Delete : M → string → option errors.error * M;
  GetLocations : M → string → list RegionLocation * option errors.error;
  Close : M → option errors.error
}.

Record ManagerConfig : Type := mkManagerConfig {
  Endpoints : list string;
  DialTimeout : time.Duration;
  Username : string;
  Password : string
}.

Record EtcdManager : Type := mkEtcdManager {
  config : ManagerConfig;
  store : gmap string GlobalFileMetadata
}.

Definition NewEtcdManager (cfg : ManagerConfig) : EtcdManager :=
  {| config := cfg; store := ∅ |}.

Definition with_store (m : EtcdManager)
    (s : gmap string GlobalFileMetadata) : EtcdManager :=
  {| config := config m; store := s |}.

Definition EtcdManager_Get (m : EtcdManager) (fileID : string)
    : option GlobalFileMetadata * option errors.error :=
  match store m !! fileID with
  | None => (None, Some errors.ErrNotFound)
  | Some meta => (Some meta, None)
  end.

Definition EtcdManager_Update (m : EtcdManager) (meta : GlobalFileMetadata)
    : option errors.error * EtcdManager :=
  match store m !! ID meta with
  | None => (Some errors.ErrNotFound, m)
  | Some existing =>
      let relation := CompareClock existing (VectorClock meta) in
      if decide (relation = regionmeta.ClockConcurrent)
      then (Some errors.ErrConflict, m)
      else (None, with_store m (<[ID meta := meta]> (store m)))
  end.

Definition EtcdManager_Register (m : EtcdManager) (meta : GlobalFileMetadata)
    : option errors.error * EtcdManager :=
  match store m !! ID meta with
  | Some _ => (Some errors.ErrAlreadyExists, m)
  | None => (None, with_store m (<[ID meta := meta]> (store m)))
  end.

Definition EtcdManager_Delete (m : EtcdManager) (fileID : string)
    : option errors.error * EtcdManager :=
  match store m !! fileID with
  | None => (Some errors.ErrNotFound, m)
  | Some _ => (None, with_store m (delete fileID (store m)))
  end.

Definition EtcdManager_GetLocations (m : EtcdManager) (fileID : string)
    : list RegionLocation * option errors.error :=
  match store m !! fileID with
  | None => ([], Some errors.ErrNotFound)
  | Some meta => (Locations meta, None)
  end.

Definition EtcdManager_Close (m : EtcdManager) : option errors.error := None.

#[global] Instance EtcdManager_Manager : Manager EtcdManager := {|
  Get := EtcdManager_Get;
  Update := EtcdManager_Update;
  Register := EtcdManager_Register;
  Delete := EtcdManager_Delete;
  GetLocations := EtcdManager_GetLocations;
  Close := EtcdManager_Close
|}.

(** Every file is stored under its own ID. *)
Definition keyedByID (m : EtcdManager) : Prop :=
  ∀ k g, store m !! k = Some g → ID g = k.

End metadata.

(** ** internal/coordinator/conflict: detection and resolution *)

Module conflict.

Definition Strategy : Type := string.
Definition StrategyLWW : Strategy := "last_writer_wins".
Definition StrategyMerge : Strategy := "merge".
Definition StrategyManual : Strategy := "manual".
Definition StrategyFork : Strategy := "fork".

Record Conflict : Type := mkConflict {
  ID : string;
  FileID : string;
  LocalVersion : metadata.GlobalFileMetadata;
  RemoteVersion : metadata.GlobalFileMetadata;
  DetectedAt : time.Time;
  Status : string
}.

(** [Result] and [Rejected] are pointers that Resolve may leave nil. *)
Record Resolution : Type := mkResolution {
  ConflictID : string;
  Strategy_ : Strategy;
  Result : option metadata.GlobalFileMetadata;
  Rejected : option metadata.GlobalFileMetadata;
  ResolvedAt : time.Time
}.

Record Resolver : Type := mkResolver {
  defaultStrategy : Strategy
}.

Definition NewResolver (defaultStrategy : Strategy) : Resolver :=
  {| defaultStrategy := defaultStrategy |}.

(** [generateConflictID]; [stamp] is the current time as
    [Format("20060102150405.000")] prints it. *)
Definition generateConflictID (stamp : string) : string :=
  "conflict-" +:+ stamp.

(** Detect returns nil (None) or the new conflict. *)
Definition Detect (r : Resolver) (local remote : metadata.GlobalFileMetadata)
    (stamp : string) (now : time.Time) : option Conflict :=
  let relation := metadata.CompareClock local (metadata.VectorClock remote) in
  if decide (relation ≠ regionmeta.ClockConcurrent) then None
  else Some {| ID := generateConflictID stamp;
               FileID := metadata.ID local;
               LocalVersion := local;
               RemoteVersion := remote;
               DetectedAt := now;
               Status := "pending" |}.

Definition resolveLastWriterWins (r : Resolver) (conflict : Conflict)
    : metadata.GlobalFileMetadata * metadata.GlobalFileMetadata :=
  if time.After (metadata.UpdatedAt (LocalVersion conflict))
                (metadata.UpdatedAt (RemoteVersion conflict))
  then (LocalVersion conflict, RemoteVersion conflict)
  else (RemoteVersion conflict, LocalVersion conflict).

(** [forked.Path = ...; forked.Name = ...] on a copy of a version. *)
Definition with_Path_Name (g : metadata.GlobalFileMetadata)
    (path name : string) : metadata.GlobalFileMetadata :=
  let f := metadata.FileMetadata g in
  {| metadata.FileMetadata :=
       {| regionmeta.ID := regionmeta.ID f;
          regionmeta.Name := name;
          regionmeta.Path := path;
          regionmeta.Size := regionmeta.Size f;
          regionmeta.ContentHash := regionmeta.ContentHash f;
          regionmeta.MimeType := regionmeta.MimeType f;
          regionmeta.Version := regionmeta.Version f;
          regionmeta.VectorClock := regionmeta.VectorClock f;
          regionmeta.OwnerID := regionmeta.OwnerID f;
          regionmeta.CreatedAt := regionmeta.CreatedAt f;
          regionmeta.UpdatedAt := regionmeta.UpdatedAt f;
          regionmeta.CreatedBy := regionmeta.CreatedBy f;
          regionmeta.UpdatedBy := regionmeta.UpdatedBy f;
          regionmeta.OriginRegion := regionmeta.OriginRegion f;
          regionmeta.LocalState_ := regionmeta.LocalState_ f;
          regionmeta.SyncState_ := regionmeta.SyncState_ f;
          regionmeta.CustomMeta := regionmeta.CustomMeta f |};
     metadata.Locations := metadata.Locations g;
     metadata.Primary := metadata.Primary g;
     metadata.Replicas := metadata.Replicas g |}.

Definition resolveFork (r : Resolver) (conflict : Conflict)
    : metadata.GlobalFileMetadata :=
  let forked := RemoteVersion conflict in
  with_Path_Name forked
    (metadata.Path forked +:+ ".conflict")
    (metadata.Name forked +:+ ".conflict").

Definition with_Status (c : Conflict) (s : string) : Conflict :=
  {| ID := ID c; FileID := FileID c; LocalVersion := LocalVersion c;
     RemoteVersion := RemoteVersion c; DetectedAt := DetectedAt c;
     Status := s |}.

(** Resolve returns the resolution, the error (always nil) and the
    conflict as it is left behind the pointer. *)
Definition Resolve (r : Resolver) (conflict : Conflict) (strategy : Strategy)
    (now : time.Time) : Resolution * option errors.error * Conflict :=
  let strategy :=
    if decide (strategy = "") then defaultStrategy r else strategy in
  let '(result, rejected) :=
    if decide (strategy = StrategyLWW) then
      let '(w, l) := resolveLastWriterWins r conflict in (Some w, Some l)
    else if decide (strategy = StrategyFork) then
      (Some (resolveFork r conflict), None)
    else
      let '(w, l) := resolveLastWriterWins r conflict in (Some w, Some l) in
  let resolution :=
    {| ConflictID := ID conflict;
       Strategy_ := strategy;
       Result := result;
       Rejected := rejected;
       ResolvedAt := now |} in
  (resolution, None, with_Status conflict "resolved").

End conflict.

(** ** internal/coordinator/registry: region registration and health *)

Module registry.

Record GeoLocation : Type := mkGeoLocation {
  Latitude : float;
  Longitude : float;
  City : string;
  Country : string
}.

Record Capacity : Type := mkCapacity {
  TotalBytes : Z;
  UsedBytes : Z;
  FreeBytes : Z
}.

Record RegionStatus : Type := mkRegionStatus {
  State : string;
  SyncLag : Z;
  LoadLevel : float;
  LastCheckAt : time.Time
}.

Record RegionInfo : Type := mkRegionInfo {
  ID : string;
  Name : string;
  Endpoint : string;
  Location : GeoLocation;
  Capacity_ : Capacity;
  Status : RegionStatus;
  JoinedAt : time.Time;
  LastSeenAt : time.Time
}.

Record Registry : Type := mkRegistry {
  regions : gmap string RegionInfo
}.

Definition NewRegistry : Registry := {| regions := ∅ |}.

(** [status.State = s]. *)
Definition with_State (st : RegionStatus) (s : string) : RegionStatus :=
  {| State := s; SyncLag := SyncLag st; LoadLevel := LoadLevel st;
     LastCheckAt := LastCheckAt st |}.

Definition with_LastCheckAt (st : RegionStatus) (t : time.Time)
    : RegionStatus :=
  {| State := State st; SyncLag := SyncLag st; LoadLevel := LoadLevel st;
     LastCheckAt := t |}.

Definition with_Status (r : RegionInfo) (st : RegionStatus) : RegionInfo :=
  {| ID := ID r; Name := Name r; Endpoint := Endpoint r;
     Location := Location r; Capacity_ := Capacity_ r; Status := st;
     JoinedAt := JoinedAt r; LastSeenAt := LastSeenAt r |}.

Definition with_LastSeenAt (r : RegionInfo) (t : time.Time) : RegionInfo :=
  {| ID := ID r; Name := Name r; Endpoint := Endpoint r;
     Location := Location r; Capacity_ := Capacity_ r; Status := Status r;
     JoinedAt := JoinedAt r; LastSeenAt := t |}.

Definition with_JoinedAt (r : RegionInfo) (t : time.Time) : RegionInfo :=
  {| ID := ID r; Name := Name r; Endpoint := Endpoint r;
     Location := Location r; Capacity_ := Capacity_ r; Status := Status r;
     JoinedAt := t; LastSeenAt := LastSeenAt r |}.

(** Register; [t1], [t2], [t3] are its three readings of the clock. *)
Definition Register (r : Registry) (region : RegionInfo)
    (t1 t2 t3 : time.Time) : option errors.error * Registry :=
  match regions r !! ID region with
  | Some _ => (Some errors.ErrAlreadyExists, r)
  | None =>
      let region := with_JoinedAt region t1 in
      let region := with_LastSeenAt region t2 in
      let region := with_Status region (with_State (Status region) "healthy") in
      let region := with_Status region (with_LastCheckAt (Status region) t3) in
      (None, {| regions := <[ID region := region]> (regions r) |})
  end.

Definition Deregister (r : Registry) (regionID : string)
    : option errors.error * Registry :=
  match regions r !! regionID with
  | None => (Some errors.ErrNotFound, r)
  | Some _ => (None, {| regions := delete regionID (regions r) |})
  end.

(** Heartbeat; [t1], [t2] are its two readings of the clock. *)
Definition Heartbeat (r : Registry) (regionID : string)
    (status : RegionStatus) (t1 t2 : time.Time)
    : option errors.error * Registry :=
  match regions r !! regionID with
  | None => (Some errors.ErrNotFound, r)
  | Some region =>
      let region := with_LastSeenAt region t1 in
      let region := with_Status region status in
      let region := with_Status region (with_LastCheckAt (Status region) t2) in
      (None, {| regions := <[regionID := region]> (regions r) |})
  end.

Definition GetRegion (r : Registry) (regionID : string)
    : option RegionInfo * option errors.error :=
  match regions r !! regionID with
  | None => (None, Some errors.ErrNotFound)
  | Some region => (Some region, None)
  end.

Definition degradedThreshold : time.Duration := 1 * time.Minute.
Definition offlineThreshold : time.Duration := 5 * time.Minute.

(** The body of the loop of checkHealth, on one region. *)
Definition checkRegion (now : time.Time) (region : RegionInfo) : RegionInfo :=
  let elapsed := time.Sub now (LastSeenAt region) in
  if bool_decide (elapsed > offlineThreshold) then
    if decide (State (Status region) ≠ "offline")
    then with_Status region (with_State (Status region) "offline")
    else region
  else if bool_decide (elapsed > degradedThreshold) then
    if decide (State (Status region) = "healthy")
    then with_Status region (with_State (Status region) "degraded")
    else region
  else region.

(** checkHealth: one evaluation at the instant [now]; every region is
    updated from its own fields only. *)
Definition checkHealth (r : Registry) (now : time.Time) : Registry :=
  {| regions := checkRegion now <$> regions r |}.

(** The regions in the order in which [for _, region := range r.regions]
    yields them. *)
Definition rangeRegions (r : Registry) : list RegionInfo :=
  (map_to_list (regions r)).*2.

Definition GetActiveRegions (r : Registry)
    : list RegionInfo * option errors.error :=
  (filter (λ region, State (Status region) ≠ "offline") (rangeRegions r), None).

Definition GetHealthyRegions (r : Registry)
    : list RegionInfo * option errors.error :=
  (filter (λ region, State (Status region) = "healthy") (rangeRegions r), None).

End registry.

(** ** internal/coordinator/sync: the sync engine *)

Module coordsync.

Record ChangeEvent : Type := mkChangeEvent {
  ID : string;
  Type_ : string;
  FileID : string;
  Metadata : metadata.GlobalFileMetadata;
  VectorClock : regionmeta.VClock;
  Timestamp : time.Time;
  RegionID : string
}.

Record EngineConfig : Type := mkEngineConfig {
  DefaultStrategy : string;
  BatchSize : Z;
  BroadcastTimeout : time.Duration
}.

Record RegionState : Type := mkRegionState {
  RegionID_ : string;
  LastEventID : string;
  LastSyncAt : time.Time;
  PendingEvents : list ChangeEvent
}.

Section engine.
Context {M : Type} `{!metadata.Manager M}.

Record Engine : Type := mkEngine {
  config : EngineConfig;
  metaManager : M;
  regions : gmap string RegionState
}.

Definition NewEngine (cfg : EngineConfig) (metaManager : M) : Engine :=
  {| config := cfg; metaManager := metaManager; regions := ∅ |}.

Definition with_metaManager (e : Engine) (m : M) : Engine :=
  {| config := config e; metaManager := m; regions := regions e |}.

Definition with_regions (e : Engine) (rs : gmap string RegionState) : Engine :=
  {| config := config e; metaManager := metaManager e; regions := rs |}.

(** The body of the loop of broadcastChange, for one entry of the map. *)
Definition queueFor (event : ChangeEvent) (regionID : string)
    (state : RegionState) : RegionState :=
  if decide (regionID = RegionID event) then state
  else {| RegionID_ := RegionID_ state;
          LastEventID := LastEventID state;
          LastSyncAt := LastSyncAt state;
          PendingEvents := PendingEvents state ++ [event] |}.

Definition broadcastChange (e : Engine) (event : ChangeEvent) : Engine :=
  with_regions e (map_imap (λ k st, Some (queueFor event k st)) (regions e)).

(** The [switch event.Type] of HandleChange. *)
Definition applyChange (m : M) (event : ChangeEvent)
    : option errors.error * M :=
  if decide (Type_ event = "CREATE") then
    metadata.Register m (Metadata event)
  else if decide (Type_ event = "UPDATE") then
    metadata.Update m (Metadata event)
  else if decide (Type_ event = "DELETE") then
    metadata.Delete m (FileID event)
  else (None, m).

Definition HandleChange (e : Engine) (event : ChangeEvent)
    : option errors.error * Engine :=
  match applyChange (metaManager e) event with
  | (Some err, m) => (Some err, with_metaManager e m)
  | (None, m) =>
      let e := with_metaManager e m in
      if decide (DefaultStrategy (config e) = "eager")
      then (None, broadcastChange e event)
      else (None, e)
  end.

Definition RegisterRegion (e : Engine) (regionID : string) (now : time.Time)
    : Engine :=
  with_regions e
    (<[regionID := {| RegionID_ := regionID; LastEventID := "";
                      LastSyncAt := now; PendingEvents := [] |}]> (regions e)).

Definition UnregisterRegion (e : Engine) (regionID : string) : Engine :=
  with_regions e (delete regionID (regions e)).

(** GetPendingChanges returns the slice (None for the nil slice), the
    error (always nil) and the engine. *)
Definition GetPendingChanges (e : Engine) (regionID : string)
    (now : time.Time)
    : option (list ChangeEvent) * option errors.error * Engine :=
  match regions e !! regionID with
  | None => (None, None, e)
  | Some state =>
      let events := PendingEvents state in
      let state := {| RegionID_ := RegionID_ state;
                      LastEventID := LastEventID state;
                      LastSyncAt := now;
                      PendingEvents := [] |} in
      (Some events, None, with_regions e (<[regionID := state]> (regions e)))
  end.

End engine.

Arguments Engine M : clear implicits.

End coordsync.

(** ** internal/region/sync: the change queue and the sync agent *)

Module regionsync.

Definition ChangeType : Type := string.
Definition ChangeTypeCreate : ChangeType := "CREATE".
Definition ChangeTypeUpdate : ChangeType := "UPDATE".
Definition ChangeTypeDelete : ChangeType := "DELETE".

Record ChangeEvent : Type := mkChangeEvent {
  ID : string;
  Type_ : ChangeType;
  FileID : string;
  Metadata : regionmeta.FileMetadata;
  VectorClock : regionmeta.VClock;
  Timestamp : time.Time;
  RegionID : string;
  Attempts : Z
}.

Record ChangeQueue : Type := mkChangeQueue {
  items : list ChangeEvent;
  maxSize : Z
}.

Definition NewChangeQueue (maxSize : Z) : ChangeQueue :=
  {| items := []; maxSize := maxSize |}.

(** [len(q.items)]. *)
Definition Len (q : ChangeQueue) : Z := Z.of_nat (length (items q)).

Definition Push (q : ChangeQueue) (event : ChangeEvent)
    : option errors.error * ChangeQueue :=
  if bool_decide (Len q >= maxSize q) then (Some errors.ErrQueueFull, q)
  else (None, {| items := items q ++ [event]; maxSize := maxSize q |}).

(** Pop returns nil (None) on an empty queue. *)
Definition Pop (q : ChangeQueue) : option ChangeEvent * ChangeQueue :=
  match items q with
  | [] => (None, q)
  | event :: rest => (Some event, {| items := rest; maxSize := maxSize q |})
  end.

Definition Clear (q : ChangeQueue) : ChangeQueue :=
  {| items := []; maxSize := maxSize q |}.

(** A caller that pushes [events] one after the other, as the queue test
    does, keeping the error of each Push. *)
Fixpoint PushAll (q : ChangeQueue) (events : list ChangeEvent)
    : list (option errors.error) * ChangeQueue :=
  match events with
  | [] => ([], q)
  | event :: rest =>
      let '(err, q) := Push q event in
      let '(errs, q) := PushAll q rest in
      (err :: errs, q)
  end.

Record AgentConfig : Type := mkAgentConfig {
  RegionID_ : string;
  Mode : string;
  BatchSize : Z;
  BatchInterval : time.Duration;
  RetryInterval : time.Duration;
  MaxRetries : Z
}.

(** What the agent hands to its logger. *)
Inductive Level : Type := DebugLevel | InfoLevel | WarnLevel | ErrorLevel.

Inductive Field : Type :=
| zap_String (key val : string)
| zap_Int (key : string) (val : Z)
| zap_Error (err : errors.error).

Record Entry : Type := mkEntry {
  level : Level;
  msg : string;
  fields : list Field
}.

(** The agent: its configuration, its queue, and the entries it has
    logged, oldest first. *)
Record Agent : Type := mkAgent {
  config : AgentConfig;
  queue : ChangeQueue;
  logged : list Entry
}.

Definition NewAgent (cfg : AgentConfig) : Agent :=
  {| config := cfg; queue := NewChangeQueue 10000; logged := [] |}.

Definition log (a : Agent) (e : Entry) : Agent :=
  {| config := config a; queue := queue a; logged := logged a ++ [e] |}.

Definition with_queue (a : Agent) (q : ChangeQueue) : Agent :=
  {| config := config a; queue := q; logged := logged a |}.

Definition with_Attempts (event : ChangeEvent) (n : Z) : ChangeEvent :=
  {| ID := ID event; Type_ := Type_ event; FileID := FileID event;
     Metadata := Metadata event; VectorClock := VectorClock event;
     Timestamp := Timestamp event; RegionID := RegionID event;
     Attempts := n |}.

(** [a.logger.Warn("sync failed", ...)]. *)
Definition failedEntry (event : ChangeEvent) (err : errors.error) : Entry :=
  {| level := WarnLevel; msg := "sync failed";
     fields := [zap_String "event_id" (ID event);
                zap_Int "attempts" (Attempts event);
                zap_Error err] |}.

(** [a.logger.Error("max retries exceeded, dropping event", ...)]. *)
Definition droppedEntry (event : ChangeEvent) : Entry :=
  {| level := ErrorLevel; msg := "max retries exceeded, dropping event";
     fields := [zap_String "event_id" (ID event)] |}.

(** handleSyncError returns the agent and the event as it is left behind
    the pointer. *)
Definition handleSyncError (a : Agent) (event : ChangeEvent)
    (err : errors.error) : Agent * ChangeEvent :=
  let event := with_Attempts event (goint.incr (Attempts event)) in
  let a := log a (failedEntry event err) in
  if bool_decide (Attempts event < MaxRetries (config a)) then
    let '(_, q) := Push (queue a) event in
    (with_queue a q, event)
  else
    (log a (droppedEntry event), event).

(** PopN returns None when it panics: [make] refuses a negative length.
    Of the slice it returns, None is nil. *)
Definition PopN (q : ChangeQueue) (n : Z)
    : option (option (list ChangeEvent) * ChangeQueue) :=
  match items q with
  | [] => Some (None, q)
  | _ =>
      let count := if bool_decide (n > Len q) then Len q else n in
      if bool_decide (count < 0) then None
      else Some (Some (take (Z.to_nat count) (items q)),
                 {| items := drop (Z.to_nat count) (items q);
                    maxSize := maxSize q |})
  end.

Definition GetQueueSize (a : Agent) : Z := Len (queue a).

(** [generateEventID]; [stamp] is the current time as
    [Format("20060102150405.000000000")] prints it. *)
Definition generateEventID (stamp : string) : string := stamp.

(** [a.logger.Error("failed to queue change", zap.Error(err))]. *)
Definition queueFailedEntry (err : errors.error) : Entry :=
  {| level := ErrorLevel; msg := "failed to queue change";
     fields := [zap_Error err] |}.

(** QueueChange; [stamp] and [now] are its two readings of the clock. *)
Definition QueueChange (a : Agent) (changeType : ChangeType)
    (meta : regionmeta.FileMetadata) (stamp : string) (now : time.Time)
    : Agent :=
  let event := {| ID := generateEventID stamp;
                  Type_ := changeType;
                  FileID := regionmeta.ID meta;
                  Metadata := meta;
                  VectorClock := regionmeta.VectorClock meta;
                  Timestamp := now;
                  RegionID := RegionID_ (config a);
                  Attempts := 0 |} in
  match Push (queue a) event with
  | (Some err, _) => log a (queueFailedEntry err)
  | (None, q) => with_queue a q
  end.

(** [a.logger.Debug("syncing event", ...)]. *)
Definition syncingEntry (event : ChangeEvent) : Entry :=
  {| level := DebugLevel; msg := "syncing event";
     fields := [zap_String "event_id" (ID event);
                zap_String "file_id" (FileID event);
                zap_String "type" (Type_ event)] |}.

(** syncEvent: the coordinator call is not there yet; it logs and returns
    nil. *)
Definition syncEvent (a : Agent) (event : ChangeEvent)
    : option errors.error * Agent :=
  (None, log a (syncingEntry event)).

(** The loop of syncBatch over the popped events. *)
Fixpoint syncEach (a : Agent) (events : list ChangeEvent) : Agent :=
  match events with
  | [] => a
  | event :: rest =>
      match syncEvent a event with
      | (Some err, a) => syncEach (handleSyncError a event err).1 rest
      | (None, a) => syncEach a rest
      end
  end.

(** syncBatch; None when PopN panics. *)
Definition syncBatch (a : Agent) : option Agent :=
  match PopN (queue a) (BatchSize (config a)) with
  | None => None
  | Some (popped, q) =>
      let a := with_queue a q in
      let events := default [] popped in
      if decide (length events = 0%nat) then Some a
      else
        let a := log a {| level := DebugLevel; msg := "syncing batch";
                          fields := [zap_Int "count"
                                       (Z.of_nat (length events))] |} in
        Some (syncEach a events)
  end.

(** The queue holds no more than its capacity. *)
Definition withinCapacity (q : ChangeQueue) : Prop := Len q <= maxSize q.

End regionsync.

(** ** Concrete inputs used by the examples *)

Module fixtures.

(** A clock literal [map[string]uint64{...}]. *)
Definition vc (l : list (string * N)) : regionmeta.VClock :=
  Some (list_to_map l).

(** [&GlobalFileMetadata{FileMetadata: FileMetadata{ID, Name, Path,
    VectorClock, UpdatedAt}}], every other field at its zero value. *)
Definition file (id name path : string) (clock : regionmeta.VClock)
    (updatedAt : time.Time) : metadata.GlobalFileMetadata :=
  {| metadata.FileMetadata :=
       {| regionmeta.ID := id;
          regionmeta.Name := name;
          regionmeta.Path := path;
          regionmeta.Size := 0;
          regionmeta.ContentHash := "";
          regionmeta.MimeType := "";
          regionmeta.Version := 0;
          regionmeta.VectorClock := clock;
          regionmeta.OwnerID := "";
          regionmeta.CreatedAt := 0;
          regionmeta.UpdatedAt := updatedAt;
          regionmeta.CreatedBy := "";
          regionmeta.UpdatedBy := "";
          regionmeta.OriginRegion := "";
          regionmeta.LocalState_ := "";
          regionmeta.SyncState_ := "";
          regionmeta.CustomMeta := None |};
     metadata.Locations := [];
     metadata.Primary := "";
     metadata.Replicas := 0 |}.

(** A pending conflict between two versions of file-1. *)
Definition pendingConflict (local remote : metadata.GlobalFileMetadata)
    : conflict.Conflict :=
  {| conflict.ID := "conflict-1";
     conflict.FileID := "file-1";
     conflict.LocalVersion := local;
     conflict.RemoteVersion := remote;
     conflict.DetectedAt := 0;
     conflict.Status := "pending" |}.

(** Some instant T, in nanoseconds. *)
Definition T : time.Time := 1700000000 * time.Second.

(** [&ChangeEvent{ID: id}] on the region side, with [attempts] failed
    transmissions so far. *)
Definition regionEvent (id : string) (attempts : Z) : regionsync.ChangeEvent :=
  {| regionsync.ID := id;
     regionsync.Type_ := "";
     regionsync.FileID := "";
     regionsync.Metadata := regionmeta.zero;
     regionsync.VectorClock := None;
     regionsync.Timestamp := 0;
     regionsync.RegionID := "";
     regionsync.Attempts := attempts |}.

(** An agent as NewAgent builds it, with at most three attempts per event
    and its queue of capacity 10000 holding [queued]. *)
Definition agentHolding (queued : list regionsync.ChangeEvent)
    : regionsync.Agent :=
  regionsync.with_queue
    (regionsync.NewAgent (regionsync.mkAgentConfig "region-a" "push" 100 0 0 3))
    (regionsync.mkChangeQueue queued 10000).

(** [&RegionInfo{ID: id, Name: "Test Region", Endpoint: "localhost:9090"}]. *)
Definition regionInfo (id : string) : registry.RegionInfo :=
  {| registry.ID := id;
     registry.Name := "Test Region";
     registry.Endpoint := "localhost:9090";
     registry.Location := registry.mkGeoLocation 0%float 0%float "" "";
     registry.Capacity_ := registry.mkCapacity 0 0 0;
     registry.Status := registry.mkRegionStatus "" 0 0%float 0;
     registry.JoinedAt := 0;
     registry.LastSeenAt := 0 |}.

(** A registry in which region-1 registered at the instant T. *)
Definition registryAtT : registry.Registry :=
  (registry.Register registry.NewRegistry (regionInfo "region-1") T T T).2.

(** The state reported for region-1. *)
Definition stateOf (r : registry.Registry) : option string :=
  (λ region, registry.State (registry.Status region))
    <$> registry.regions r !! "region-1".

Definition emptyManager : metadata.EtcdManager :=
  metadata.NewEtcdManager (metadata.mkManagerConfig [] 0 "" "").

(** The engine of TestSyncEngine_HandleChange: eager, with region-a and
    region-b registered at the instants 1 and 2. *)
Definition eagerEngine : coordsync.Engine metadata.EtcdManager :=
  coordsync.RegisterRegion
    (coordsync.RegisterRegion
       (coordsync.NewEngine (coordsync.mkEngineConfig "eager" 100 0)
          emptyManager)
       "region-a" 1)
    "region-b" 2.

(** The CREATE event of that test, coming from region-a. *)
Definition createEvent : coordsync.ChangeEvent :=
  {| coordsync.ID := "event-1";
     coordsync.Type_ := "CREATE";
     coordsync.FileID := "file-1";
     coordsync.Metadata := file "file-1" "" "/test.txt" None 0;
     coordsync.VectorClock := None;
     coordsync.Timestamp := 0;
     coordsync.RegionID := "region-a" |}.

End fixtures.

(** * Properties *)

(** ** Vector clocks *)

Section clocks.
Import regionmeta.

Implicit Types (m o : gmap string N) (ks : list string) (k : string).

(** The flags after the loop: each is set when it was set before or some
    key of the range sets it. *)
Lemma compareLoop_flags m o ks fl :
  compareLoop m o ks fl =
    (fl.1 || existsb (λ k, at_key m k <? at_key o k)%N ks,
     fl.2 || existsb (λ k, at_key o k <? at_key m k)%N ks).
Proof.
  revert fl. induction ks as [|k ks IH]; intros [lt gt]; simpl.
  - by rewrite !orb_false_r.
  - rewrite IH. unfold compareStep; simpl.
    destruct (N.ltb_spec (at_key m k) (at_key o k)) as [H1|H1];
      destruct (N.ltb_spec (at_key o k) (at_key m k)) as [H2|H2];
      simpl; try lia.
    + by rewrite orb_true_r.
    + by rewrite orb_true_r.
    + done.
Qed.

(** Exchanging the two clocks exchanges the two flags. *)
Lemma compareLoop_swap m o ks :
  compareLoop o m ks (false, false) =
    prod_swap (compareLoop m o ks (false, false)).
Proof. by rewrite !compareLoop_flags. Qed.

Lemma existsb_elem_of (f : string → bool) ks :
  existsb f ks = true ↔ ∃ k, k ∈ ks ∧ f k = true.
Proof.
  rewrite existsb_exists. split; intros (k & Hk & Hf); exists k;
    (split; [by apply list_elem_of_In|done]).
Qed.

(** The order in which the range statement yields the keys, and how often
    it yields one, do not matter to the flags. *)
Lemma compareLoop_range_order m o ks ks' :
  (∀ k, k ∈ ks ↔ k ∈ ks') →
  compareLoop m o ks (false, false) = compareLoop m o ks' (false, false).
Proof.
  intros Hks. rewrite !compareLoop_flags. simpl.
  assert (∀ f : string → bool, existsb f ks = existsb f ks') as Hex.
  { intros f. apply eq_true_iff_eq. rewrite !existsb_elem_of.
    split; intros (k & Hk & Hf); exists k; (split; [by apply Hks|done]). }
  by rewrite !Hex.
Qed.

(** A key outside both maps reads 0 in both and sets no flag. *)
Lemma at_key_absent m k : k ∉ dom m → at_key m k = 0%N.
Proof. intros H%not_elem_of_dom. unfold at_key. by rewrite H. Qed.

Lemma lessThan_spec m o :
  (compareLoop m o (elements (allKeys m o)) (false, false)).1 = true
  ↔ someLess m o.
Proof.
  rewrite compareLoop_flags. simpl. rewrite existsb_elem_of. unfold someLess.
  split.
  - intros (k & _ & Hk). exists k. by apply N.ltb_lt.
  - intros (k & Hk). exists k. split; [|by apply N.ltb_lt].
    apply elem_of_elements. unfold allKeys. apply elem_of_union.
    destruct (decide (k ∈ dom o)) as [|Hno]; [by right|].
    rewrite (at_key_absent o k Hno) in Hk. lia.
Qed.

Lemma greaterThan_spec m o :
  (compareLoop m o (elements (allKeys m o)) (false, false)).2 = true
  ↔ someLess o m.
Proof.
  rewrite compareLoop_flags. simpl. rewrite existsb_elem_of. unfold someLess.
  split.
  - intros (k & _ & Hk). exists k. by apply N.ltb_lt.
  - intros (k & Hk). exists k. split; [|by apply N.ltb_lt].
    apply elem_of_elements. unfold allKeys. apply elem_of_union.
    destruct (decide (k ∈ dom m)) as [|Hno]; [by left|].
    rewrite (at_key_absent m k Hno) in Hk. lia.
Qed.

(** Two non-nil clocks are Concurrent exactly when one key is strictly
    smaller and another strictly greater. *)
Lemma compareClocks_concurrent m o :
  compareClocks (Some m) (Some o) = ClockConcurrent
  ↔ someLess m o ∧ someLess o m.
Proof.
  rewrite <- lessThan_spec, <- greaterThan_spec. simpl.
  destruct (compareLoop m o (elements (allKeys m o)) (false, false))
    as [[] []]; simpl; split; try done; intros []; done.
Qed.

Lemma relationOf_swap fl : relationOf (prod_swap fl) = converse (relationOf fl).
Proof. by destruct fl as [[] []]. Qed.

Lemma compareClocks_converse (a b : VClock) :
  compareClocks b a = converse (compareClocks a b).
Proof.
  destruct a as [m|], b as [o|]; simpl; try done.
  unfold allKeys. rewrite (union_comm_L (dom o) (dom m)).
  by rewrite compareLoop_swap, relationOf_swap.
Qed.

(** C10: for all clocks A and B, nil or not, A.Compare(B) is Before exactly
    when B.Compare(A) is After, After exactly when B.Compare(A) is Before,
    Equal exactly when B.Compare(A) is Equal, and Concurrent exactly when
    B.Compare(A) is Concurrent. *)
Theorem CompareClock_symmetry (A B : FileMetadata) :
  let ab := CompareClock A (VectorClock B) in
  let ba := CompareClock B (VectorClock A) in
  (ab = ClockBefore ↔ ba = ClockAfter) ∧
  (ab = ClockAfter ↔ ba = ClockBefore) ∧
  (ab = ClockEqual ↔ ba = ClockEqual) ∧
  (ab = ClockConcurrent ↔ ba = ClockConcurrent).
Proof.
  unfold CompareClock. simpl.
  rewrite (compareClocks_converse (VectorClock A) (VectorClock B)).
  destruct (compareClocks (VectorClock A) (VectorClock B)); simpl;
    repeat split; intros; congruence.
Qed.

End clocks.

(** The cases of TestFileMetadata_CompareClock. *)
Section clock_tests.
Import regionmeta fixtures.

Example CompareClock_test_equal :
  compareClocks (vc [("a", 1); ("b", 2)]%N) (vc [("a", 1); ("b", 2)]%N)
  = ClockEqual.
Proof. vm_compute. reflexivity. Qed.

Example CompareClock_test_before :
  compareClocks (vc [("a", 1); ("b", 1)]%N) (vc [("a", 2); ("b", 2)]%N)
  = ClockBefore.
Proof. vm_compute. reflexivity. Qed.

Example CompareClock_test_after :
  compareClocks (vc [("a", 2); ("b", 2)]%N) (vc [("a", 1); ("b", 1)]%N)
  = ClockAfter.
Proof. vm_compute. reflexivity. Qed.

Example CompareClock_test_concurrent :
  compareClocks (vc [("a", 2); ("b", 1)]%N) (vc [("a", 1); ("b", 2)]%N)
  = ClockConcurrent.
Proof. vm_compute. reflexivity. Qed.

Example CompareClock_test_nil :
  compareClocks None None = ClockEqual
  ∧ compareClocks None (vc [("a", 1)]%N) = ClockBefore
  ∧ compareClocks (vc [("a", 1)]%N) None = ClockAfter.
Proof. vm_compute. done. Qed.

End clock_tests.

(** ** Conflict detection and resolution *)

Section resolver.
Import conflict fixtures.

(** C3: Detect returns a conflict exactly when the comparison of local's
    clock with remote's is Concurrent; the conflict is pending and pairs
    the two versions; for Before, After and Equal it returns none,
    whatever else the two versions hold. *)
Theorem Detect_iff_concurrent (r : Resolver)
    (local remote : metadata.GlobalFileMetadata) (stamp : string)
    (now : time.Time) :
  let relation := metadata.CompareClock local (metadata.VectorClock remote) in
  (is_Some (Detect r local remote stamp now)
     ↔ relation = regionmeta.ClockConcurrent) ∧
  match Detect r local remote stamp now with
  | Some c =>
      relation = regionmeta.ClockConcurrent ∧
      Status c = "pending" ∧ LocalVersion c = local ∧ RemoteVersion c = remote
  | None =>
      relation = regionmeta.ClockBefore ∨ relation = regionmeta.ClockAfter ∨
      relation = regionmeta.ClockEqual
  end.
Proof.
  cbv zeta. unfold Detect.
  destruct (decide (_ ≠ _)) as [Hne|Heq%dec_stable].
  - split; [split; [by intros [? ?] | done]|].
    destruct (metadata.CompareClock local (metadata.VectorClock remote));
      auto; done.
  - split; [split; [done | by eexists]|]. done.
Qed.

(** The three cases of TestResolver_Detect. *)
Example Detect_test_equal :
  Detect (NewResolver StrategyLWW)
    (file "file-1" "" "" (vc [("a", 1); ("b", 2)]%N) 0)
    (file "file-1" "" "" (vc [("a", 1); ("b", 2)]%N) 0) "s" 7 = None.
Proof. vm_compute. reflexivity. Qed.

Example Detect_test_before :
  Detect (NewResolver StrategyLWW)
    (file "file-1" "" "" (vc [("a", 1); ("b", 1)]%N) 0)
    (file "file-1" "" "" (vc [("a", 2); ("b", 2)]%N) 0) "s" 7 = None.
Proof. vm_compute. reflexivity. Qed.

Example Detect_test_concurrent :
  let local := file "file-1" "" "" (vc [("a", 2); ("b", 1)]%N) 0 in
  let remote := file "file-1" "" "" (vc [("a", 1); ("b", 2)]%N) 0 in
  Detect (NewResolver StrategyLWW) local remote "s" 7
  = Some (mkConflict "conflict-s" "file-1" local remote 7 "pending").
Proof. vm_compute. reflexivity. Qed.

(** Contents play no part: two versions that differ in name, path and
    update time, with ordered clocks, are no conflict. *)
Example Detect_ordered_differing_contents :
  Detect (NewResolver StrategyLWW)
    (file "file-1" "a.txt" "/a.txt" (vc [("a", 1)]%N) 5)
    (file "file-1" "b.txt" "/b.txt" (vc [("a", 2)]%N) 9) "s" 7 = None.
Proof. vm_compute. reflexivity. Qed.

Lemma After_true_iff (t u : time.Time) : time.After t u = true ↔ u < t.
Proof. unfold time.After. apply bool_decide_eq_true. Qed.

Lemma After_false_iff (t u : time.Time) : time.After t u = false ↔ t ≤ u.
Proof. unfold time.After. rewrite bool_decide_eq_false. lia. Qed.

(** resolveLastWriterWins: local wins exactly when its UpdatedAt is
    strictly later; otherwise remote wins. *)
Lemma resolveLastWriterWins_cases (r : Resolver) (c : Conflict) :
  let tl := metadata.UpdatedAt (LocalVersion c) in
  let tr := metadata.UpdatedAt (RemoteVersion c) in
  (tr < tl ∧ resolveLastWriterWins r c = (LocalVersion c, RemoteVersion c)) ∨
  (tl ≤ tr ∧ resolveLastWriterWins r c = (RemoteVersion c, LocalVersion c)).
Proof.
  simpl. unfold resolveLastWriterWins.
  destruct (time.After _ _) eqn:E.
  - left. by apply After_true_iff in E.
  - right. by apply After_false_iff in E.
Qed.

(** C1, as the code has it: Resolve with last_writer_wins returns the
    version with the later UpdatedAt as Result and the other as Rejected;
    when the two UpdatedAt are equal the second operand, the Remote
    version, is the Result and the Local version is Rejected; afterwards
    the conflict's status is resolved. *)
Theorem Resolve_LWW_later_wins_tie_remote (r : Resolver) (c : Conflict)
    (now : time.Time) :
  let local := LocalVersion c in
  let remote := RemoteVersion c in
  let out := Resolve r c StrategyLWW now in
  let res := out.1.1 in
  (metadata.UpdatedAt remote < metadata.UpdatedAt local →
     Result res = Some local ∧ Rejected res = Some remote) ∧
  (metadata.UpdatedAt local < metadata.UpdatedAt remote →
     Result res = Some remote ∧ Rejected res = Some local) ∧
  (metadata.UpdatedAt local = metadata.UpdatedAt remote →
     Result res = Some remote ∧ Rejected res = Some local) ∧
  out.1.2 = None ∧
  Status out.2 = "resolved".
Proof.
  simpl. unfold Resolve. simpl.
  destruct (resolveLastWriterWins_cases r c) as [[Hlt ->]|[Hle ->]]; simpl;
    repeat split; intros; try done; lia.
Qed.

(** Remote one hour later than local, local one hour later than remote,
    and a tie. *)
Lemma Resolve_LWW_witness :
  let early := file "file-1" "early.txt" "" None T in
  let late := file "file-1" "late.txt" "" None (T + time.Hour) in
  let other := file "file-1" "other.txt" "" None T in
  let r := NewResolver StrategyLWW in
  Result (Resolve r (pendingConflict early late) StrategyLWW 9).1.1
    = Some late ∧
  Result (Resolve r (pendingConflict late early) StrategyLWW 9).1.1
    = Some late ∧
  Result (Resolve r (pendingConflict early other) StrategyLWW 9).1.1
    = Some other ∧
  Rejected (Resolve r (pendingConflict early other) StrategyLWW 9).1.1
    = Some early.
Proof.
  cbv zeta.
  set (early := file "file-1" "early.txt" "" None T).
  set (late := file "file-1" "late.txt" "" None (T + time.Hour)).
  set (other := file "file-1" "other.txt" "" None T).
  set (r := NewResolver StrategyLWW).
  destruct (Resolve_LWW_later_wins_tie_remote r (pendingConflict early late) 9)
    as (_ & Hremote & _).
  destruct (Resolve_LWW_later_wins_tie_remote r (pendingConflict late early) 9)
    as (Hlocal & _).
  destruct (Resolve_LWW_later_wins_tie_remote r (pendingConflict early other) 9)
    as (_ & _ & Htie & _).
  split; [apply Hremote; vm_compute; reflexivity|].
  split; [apply Hlocal; vm_compute; reflexivity|].
  split; apply Htie; vm_compute; reflexivity.
Defined.

(** TestResolver_Resolve_LWW: remote is one hour later. *)
Example Resolve_LWW_test :
  let local := file "file-1" "local.txt" "" None T in
  let remote := file "file-1" "remote.txt" "" None (T + time.Hour) in
  Resolve (NewResolver StrategyLWW) (pendingConflict local remote)
    StrategyLWW 9
  = (mkResolution "conflict-1" StrategyLWW (Some remote) (Some local) 9, None,
     with_Status (pendingConflict local remote) "resolved").
Proof. vm_compute. reflexivity. Qed.

(** C1 as stated fails on a tie: with equal UpdatedAt the Local version
    is not the winner, it is the one rejected. *)
Lemma Resolve_LWW_tie_local_loses :
  let local := file "file-1" "local.txt" "" None T in
  let remote := file "file-1" "remote.txt" "" None T in
  let out := Resolve (NewResolver StrategyLWW) (pendingConflict local remote)
               StrategyLWW 9 in
  metadata.UpdatedAt local = metadata.UpdatedAt remote ∧
  Result out.1.1 ≠ Some local ∧
  Result out.1.1 = Some remote ∧
  Rejected out.1.1 = Some local.
Proof. vm_compute. repeat split; congruence. Qed.

(** C2 fails on the code: Resolve has no case for manual, which falls to
    the default branch.  For every conflict the manual strategy yields the
    last-writer-wins result and leaves the status resolved, never
    escalated. *)
Theorem Resolve_manual_is_LWW (r : Resolver) (c : Conflict)
    (now : time.Time) :
  let out := Resolve r c StrategyManual now in
  let lww := Resolve r c StrategyLWW now in
  Result out.1.1 = Result lww.1.1 ∧
  Rejected out.1.1 = Rejected lww.1.1 ∧
  is_Some (Result out.1.1) ∧
  Strategy_ out.1.1 = StrategyManual ∧
  Status out.2 = "resolved" ∧
  Status out.2 ≠ "escalated".
Proof.
  simpl. unfold Resolve. simpl.
  destruct (resolveLastWriterWins r c) as [w l]. simpl.
  repeat split; try done; by eexists.
Qed.

(** The manual strategy on the pending conflict of the LWW test. *)
Example Resolve_manual_pending :
  let local := file "file-1" "local.txt" "" None T in
  let remote := file "file-1" "remote.txt" "" None (T + time.Hour) in
  Resolve (NewResolver StrategyLWW) (pendingConflict local remote)
    StrategyManual 9
  = (mkResolution "conflict-1" StrategyManual (Some remote) (Some local) 9,
     None, with_Status (pendingConflict local remote) "resolved").
Proof. vm_compute. reflexivity. Qed.

(** TestResolver_Resolve_Fork. *)
Example Resolve_Fork_test :
  let local := file "file-2" "file.txt" "/path/file.txt" None 0 in
  let remote := file "file-2" "file.txt" "/path/file.txt" None 0 in
  let out := Resolve (NewResolver StrategyFork) (pendingConflict local remote)
               StrategyFork 9 in
  (metadata.Name <$> Result out.1.1) = Some "file.txt.conflict" ∧
  (metadata.Path <$> Result out.1.1) = Some "/path/file.txt.conflict" ∧
  Rejected out.1.1 = None.
Proof. vm_compute. done. Qed.

End resolver.

(** ** The global metadata manager *)

Section manager.
Import metadata fixtures.

(** C4: an Update whose clock is Concurrent with the stored clock fails
    with ErrConflict and leaves the manager as it was; an Update for an
    absent file fails with ErrNotFound and leaves the manager as it was. *)
Theorem Update_rejects_concurrent_and_absent (m : EtcdManager)
    (meta : GlobalFileMetadata) :
  (∀ existing,
     store m !! ID meta = Some existing →
     CompareClock existing (VectorClock meta) = regionmeta.ClockConcurrent →
     EtcdManager_Update m meta = (Some errors.ErrConflict, m)) ∧
  (store m !! ID meta = None →
     EtcdManager_Update m meta = (Some errors.ErrNotFound, m)).
Proof.
  unfold EtcdManager_Update. split.
  - intros existing -> ->. by rewrite decide_True.
  - by intros ->.
Qed.

(** An Update with an ordered or equal clock does overwrite. *)
Lemma Update_accepts_ordered (m : EtcdManager) (meta existing : GlobalFileMetadata) :
  store m !! ID meta = Some existing →
  CompareClock existing (VectorClock meta) ≠ regionmeta.ClockConcurrent →
  EtcdManager_Update m meta = (None, with_store m (<[ID meta := meta]> (store m))).
Proof.
  intros Hm Hrel. unfold EtcdManager_Update. rewrite Hm.
  by rewrite decide_False.
Qed.

(** A store holding file-1 at clock {a:2, b:1}. *)
Lemma Update_rejects_witness :
  let stored := file "file-1" "f.txt" "/f.txt" (vc [("a", 2); ("b", 1)]%N) 5 in
  let incoming := file "file-1" "g.txt" "/g.txt" (vc [("a", 1); ("b", 2)]%N) 9 in
  let absent := file "file-2" "h.txt" "/h.txt" (vc [("a", 1)]%N) 9 in
  let m := with_store (NewEtcdManager (mkManagerConfig [] 0 "" ""))
             {[ "file-1" := stored ]} in
  EtcdManager_Update m incoming = (Some errors.ErrConflict, m) ∧
  EtcdManager_Update m absent = (Some errors.ErrNotFound, m).
Proof.
  simpl. split.
  - eapply (proj1 (Update_rejects_concurrent_and_absent _ _)).
    + vm_compute. reflexivity.
    + vm_compute. reflexivity.
  - apply (proj2 (Update_rejects_concurrent_and_absent _ _)).
    vm_compute. reflexivity.
Defined.

End manager.

(** ** The sync engine *)

Section engine_props.
Import coordsync fixtures.
Context {M : Type} `{!metadata.Manager M}.

Implicit Types (e : Engine M) (event : ChangeEvent) (regionID : string).

Lemma broadcastChange_lookup e event regionID :
  regions (broadcastChange e event) !! regionID
  = queueFor event regionID <$> regions e !! regionID.
Proof.
  unfold broadcastChange. simpl. rewrite map_lookup_imap.
  by destruct (regions e !! regionID).
Qed.

Lemma broadcastChange_dom e event :
  dom (regions (broadcastChange e event)) = dom (regions e).
Proof.
  apply set_eq. intros k. rewrite !elem_of_dom, broadcastChange_lookup.
  by rewrite fmap_is_Some.
Qed.

(** HandleChange returns nil exactly when the metadata application does. *)
Lemma HandleChange_error e event :
  (HandleChange e event).1 = (applyChange (metaManager e) event).1.
Proof.
  unfold HandleChange.
  destruct (applyChange (metaManager e) event) as [[err|] m]; simpl; [done|].
  by destruct (decide _).
Qed.

(** Under the eager strategy a successful HandleChange is the broadcast
    on the engine with the manager as the application left it. *)
Lemma HandleChange_eager e event :
  DefaultStrategy (config e) = "eager" →
  (applyChange (metaManager e) event).1 = None →
  HandleChange e event
  = (None, broadcastChange
             (with_metaManager e (applyChange (metaManager e) event).2) event).
Proof.
  intros Heager Hok. unfold HandleChange.
  destruct (applyChange (metaManager e) event) as [[err|] m]; simpl in *;
    [done|].
  by rewrite decide_True.
Qed.

(** Under another strategy nothing is queued. *)
Lemma HandleChange_not_eager e event :
  DefaultStrategy (config e) ≠ "eager" →
  regions (HandleChange e event).2 = regions e.
Proof.
  intros Hne. unfold HandleChange.
  destruct (applyChange (metaManager e) event) as [[err|] m]; simpl; [done|].
  by rewrite decide_False.
Qed.

(** C5: with the eager strategy and a successful metadata application,
    HandleChange appends the event to the pending list of every registered
    region but the one it came from, whose list stays as it was; the set
    of registered regions is unchanged.  With exactly A and B registered
    and an event from A, B's list gains exactly this one event and A's
    gains none. *)
Theorem HandleChange_eager_fanout e event :
  DefaultStrategy (config e) = "eager" →
  (applyChange (metaManager e) event).1 = None →
  let out := HandleChange e event in
  out.1 = None ∧
  dom (regions out.2) = dom (regions e) ∧
  (∀ regionID state,
     regions e !! regionID = Some state →
     ∃ state',
       regions out.2 !! regionID = Some state' ∧
       PendingEvents state' =
         if decide (regionID = RegionID event) then PendingEvents state
         else PendingEvents state ++ [event]) ∧
  (∀ A B sa sb,
     A ≠ B → RegionID event = A →
     regions e = {[ A := sa; B := sb ]} →
     ∃ sa' sb',
       regions out.2 !! A = Some sa' ∧ regions out.2 !! B = Some sb' ∧
       PendingEvents sa' = PendingEvents sa ∧
       PendingEvents sb' = PendingEvents sb ++ [event] ∧
       length (PendingEvents sb') = S (length (PendingEvents sb))).
Proof.
  intros Heager Hok. simpl.
  rewrite (HandleChange_eager e event Heager Hok). simpl.
  split; [done|]. split.
  { apply set_eq. intros k. rewrite !elem_of_dom, map_lookup_imap.
    destruct (regions e !! k); simpl; split; intros [? ?]; done. }
  assert (∀ regionID state,
    regions e !! regionID = Some state →
    map_imap (λ k st, Some (queueFor event k st)) (regions e) !! regionID
    = Some (queueFor event regionID state)) as Hlook.
  { intros k st Hk. by rewrite map_lookup_imap, Hk. }
  split.
  - intros regionID state Hst. eexists. split; [by apply Hlook|].
    unfold queueFor. by destruct (decide _).
  - intros A B sa sb HAB HA Hreg.
    exists (queueFor event A sa), (queueFor event B sb).
    assert (regions e !! A = Some sa) as HlA.
    { rewrite Hreg. by apply lookup_insert_eq. }
    assert (regions e !! B = Some sb) as HlB.
    { rewrite Hreg, lookup_insert_ne by done. by apply lookup_singleton_eq. }
    split; [by apply Hlook|]. split; [by apply Hlook|].
    unfold queueFor. rewrite decide_True by done.
    rewrite decide_False by congruence. simpl.
    split; [done|]. split; [done|].
    rewrite length_app. simpl. lia.
Qed.

Lemma GetPendingChanges_registered e regionID state (now : time.Time) :
  regions e !! regionID = Some state →
  GetPendingChanges e regionID now
  = (Some (PendingEvents state), None,
     with_regions e
       (<[regionID := mkRegionState (RegionID_ state) (LastEventID state)
                        now []]> (regions e))).
Proof. intros Hst. unfold GetPendingChanges. by rewrite Hst. Qed.

(** C6: for a registered region GetPendingChanges returns the region's
    pending list, leaves that list empty and sets the last-sync time to
    the current instant, touching no other region; called again with no
    HandleChange in between it returns the empty list. *)
Theorem GetPendingChanges_drains e regionID state (now1 now2 : time.Time) :
  regions e !! regionID = Some state →
  let first := GetPendingChanges e regionID now1 in
  let second := GetPendingChanges first.2 regionID now2 in
  first.1 = (Some (PendingEvents state), None) ∧
  regions first.2 !! regionID
    = Some (mkRegionState (RegionID_ state) (LastEventID state) now1 []) ∧
  (∀ other, other ≠ regionID →
     regions first.2 !! other = regions e !! other) ∧
  second.1 = (Some [], None) ∧
  regions second.2 !! regionID
    = Some (mkRegionState (RegionID_ state) (LastEventID state) now2 []).
Proof.
  intros Hst. simpl.
  rewrite (GetPendingChanges_registered e regionID state now1 Hst). simpl.
  set (drained := mkRegionState (RegionID_ state) (LastEventID state) now1 []).
  set (e1 := with_regions e (<[regionID := drained]> (regions e))).
  assert (regions e1 !! regionID = Some drained)
    as Hself by apply lookup_insert_eq.
  rewrite (GetPendingChanges_registered e1 regionID drained now2 Hself). simpl.
  repeat split; try done.
  - intros other Hne. by rewrite lookup_insert_ne.
  - apply lookup_insert_eq.
Qed.

(** An unregistered region gets the nil slice and changes nothing. *)
Lemma GetPendingChanges_unregistered e regionID (now : time.Time) :
  regions e !! regionID = None →
  GetPendingChanges e regionID now = (None, None, e).
Proof. intros Hno. unfold GetPendingChanges. by rewrite Hno. Qed.

End engine_props.

Section engine_tests.
Import coordsync fixtures.

(** TestSyncEngine_HandleChange: one pending event for region-b, none for
    region-a. *)
Lemma HandleChange_eager_fanout_witness :
  let out := HandleChange eagerEngine createEvent in
  out.1 = None ∧
  (PendingEvents <$> regions out.2 !! "region-b") = Some [createEvent] ∧
  (PendingEvents <$> regions out.2 !! "region-a") = Some [].
Proof.
  assert (DefaultStrategy (config eagerEngine) = "eager") as Heager
    by reflexivity.
  assert ((applyChange (metaManager eagerEngine) createEvent).1 = None) as Hok
    by (vm_compute; reflexivity).
  destruct (HandleChange_eager_fanout eagerEngine createEvent Heager Hok)
    as (Herr & _ & Heach & _).
  simpl. split; [exact Herr|]. split.
  - destruct (Heach "region-b" (mkRegionState "region-b" "" 2 []))
      as (st & -> & Hst); [vm_compute; reflexivity|].
    simpl. rewrite Hst. reflexivity.
  - destruct (Heach "region-a" (mkRegionState "region-a" "" 1 []))
      as (st & -> & Hst); [vm_compute; reflexivity|].
    simpl. rewrite Hst. reflexivity.
Defined.

(** The same engine after the event: region-b drains one event, then
    nothing. *)
Lemma GetPendingChanges_drains_witness :
  let e := (HandleChange eagerEngine createEvent).2 in
  let first := GetPendingChanges e "region-b" 10 in
  let second := GetPendingChanges first.2 "region-b" 11 in
  first.1 = (Some [createEvent], None) ∧ second.1 = (Some [], None).
Proof.
  simpl.
  assert (regions (HandleChange eagerEngine createEvent).2 !! "region-b"
          = Some (mkRegionState "region-b" "" 2 [createEvent])) as Hst
    by (vm_compute; reflexivity).
  destruct (GetPendingChanges_drains _ "region-b" _ 10 11 Hst)
    as (H1 & _ & _ & H2 & _).
  split; [exact H1 | exact H2].
Defined.

(** Under the lazy strategy of the coordinator test environment the same
    event is queued for no region. *)
Example HandleChange_lazy_queues_nothing :
  let e := with_regions
             (NewEngine (mkEngineConfig "lazy" 100 0) emptyManager)
             (regions eagerEngine) in
  let out := HandleChange e createEvent in
  out.1 = None ∧ regions out.2 = regions e.
Proof. vm_compute. done. Qed.

End engine_tests.

(** ** The change queue *)

Section queue.
Import regionsync fixtures.

Implicit Types (q : ChangeQueue) (event : ChangeEvent).

Lemma Push_full q event :
  Len q >= maxSize q → Push q event = (Some errors.ErrQueueFull, q).
Proof. intros H. unfold Push. by rewrite bool_decide_eq_true_2. Qed.

Lemma Push_room q event :
  Len q < maxSize q →
  Push q event = (None, mkChangeQueue (items q ++ [event]) (maxSize q)).
Proof. intros H. unfold Push. rewrite bool_decide_eq_false_2; [done|lia]. Qed.

(** While there is room for all of them, every Push succeeds and the
    events are appended in order. *)
Lemma PushAll_room q (events : list ChangeEvent) :
  Len q + Z.of_nat (length events) <= maxSize q →
  PushAll q events
  = (replicate (length events) None,
     mkChangeQueue (items q ++ events) (maxSize q)).
Proof.
  revert q. induction events as [|event rest IH]; intros q Hroom; simpl in *.
  - rewrite app_nil_r. by destruct q.
  - rewrite Push_room by lia. rewrite IH.
    + simpl. by rewrite <- app_assoc.
    + unfold Len in *. simpl. rewrite length_app. simpl. lia.
Qed.

(** C7: Push fails, with ErrQueueFull, exactly when the queue holds
    maxSize elements or more, and then leaves the queue as it was.  On a
    queue of capacity N, N pushes succeed and the next one fails; after
    one Pop one more Push succeeds and the one after it fails. *)
Theorem Push_fails_exactly_when_full :
  (∀ q event,
     ((Push q event).1 = Some errors.ErrQueueFull ↔ Len q >= maxSize q) ∧
     ((Push q event).1 = None ↔ Len q < maxSize q) ∧
     (Len q >= maxSize q → (Push q event).2 = q)) ∧
  (∀ (events : list ChangeEvent) event,
     let N := Z.of_nat (length events) in
     let filled := PushAll (NewChangeQueue N) events in
     filled.1 = replicate (length events) None ∧
     items filled.2 = events ∧
     Push filled.2 event = (Some errors.ErrQueueFull, filled.2)) ∧
  (∀ first (rest : list ChangeEvent) event1 event2,
     let N := Z.of_nat (length (first :: rest)) in
     let filled := PushAll (NewChangeQueue N) (first :: rest) in
     let popped := Pop filled.2 in
     let once := Push popped.2 event1 in
     popped.1 = Some first ∧
     once = (None, mkChangeQueue (rest ++ [event1]) N) ∧
     Push once.2 event2 = (Some errors.ErrQueueFull, once.2)).
Proof.
  split; [|split].
  - intros q event.
    destruct (decide (Len q >= maxSize q)) as [Hfull|Hroom].
    + rewrite Push_full by done. simpl. repeat split; try done; lia.
    + rewrite Push_room by lia. simpl. repeat split; try done; lia.
  - intros events event. simpl.
    rewrite PushAll_room by (unfold Len; simpl; lia). simpl.
    repeat split. apply Push_full. unfold Len. simpl. lia.
  - intros first rest event1 event2.
    cbv zeta. rewrite PushAll_room by (unfold Len; simpl; lia).
    cbn [NewChangeQueue items maxSize app fst snd Pop].
    rewrite Push_room by (unfold Len; simpl; lia).
    cbn [items maxSize fst snd]. repeat split.
    apply Push_full. unfold Len. cbn [items maxSize].
    rewrite length_app. simpl. lia.
Qed.

(** The "queue full" case of TestChangeQueue, continued by a Pop. *)
Lemma Push_fails_exactly_when_full_witness :
  let e1 := regionEvent "1" 0 in
  let e2 := regionEvent "2" 0 in
  let e3 := regionEvent "3" 0 in
  let q2 := (PushAll (NewChangeQueue 2) [e1; e2]).2 in
  Push q2 e3 = (Some errors.ErrQueueFull, q2) ∧
  (Push q2 e3).2 = q2 ∧
  (Pop q2).1 = Some e1 ∧
  Push (Pop q2).2 e3 = (None, mkChangeQueue [e2; e3] 2).
Proof.
  simpl.
  destruct Push_fails_exactly_when_full as (Hpush & Hfill & Hpop).
  destruct (Hfill [regionEvent "1" 0; regionEvent "2" 0] (regionEvent "3" 0))
    as (_ & _ & Hnext).
  destruct (Hpop (regionEvent "1" 0) [regionEvent "2" 0] (regionEvent "3" 0)
              (regionEvent "3" 0)) as (Hfirst & Honce & _).
  destruct (Hpush (PushAll (NewChangeQueue 2)
                     [regionEvent "1" 0; regionEvent "2" 0]).2
              (regionEvent "3" 0)) as (_ & _ & Hsame).
  split; [exact Hnext|].
  split; [apply Hsame; vm_compute; discriminate|].
  split; [exact Hfirst | exact Honce].
Defined.

(** FIFO: three pushes, then three pops in the order of the pushes. *)
Example ChangeQueue_fifo :
  let e1 := regionEvent "E1" 0 in
  let e2 := regionEvent "E2" 0 in
  let e3 := regionEvent "E3" 0 in
  let q := (PushAll (NewChangeQueue 5) [e1; e2; e3]).2 in
  (Pop q).1 = Some e1 ∧ (Pop (Pop q).2).1 = Some e2 ∧
  (Pop (Pop (Pop q).2).2).1 = Some e3 ∧
  (Pop (Pop (Pop (Pop q).2).2).2).1 = None.
Proof. vm_compute. done. Qed.

End queue.

(** ** The sync agent *)

Section agent.
Import regionsync fixtures.

Implicit Types (a : Agent) (event : ChangeEvent) (err : errors.error).

(** [x++] adds one below the largest int. *)
Lemma incr_below_max (x : Z) :
  goint.minInt <= x < goint.maxInt → goint.incr x = x + 1.
Proof.
  unfold goint.incr, goint.wrap, goint.minInt, goint.maxInt, goint.bits.
  change (2 ^ (64 - 1)) with 9223372036854775808.
  change (2 ^ 64) with 18446744073709551616.
  intros H. rewrite Z.mod_small by lia. lia.
Qed.

(** At the largest int it wraps to the smallest. *)
Example incr_at_max : goint.incr goint.maxInt = goint.minInt.
Proof. vm_compute. reflexivity. Qed.

(** handleSyncError by cases, on the event with its counter advanced. *)
Lemma handleSyncError_cases a event err :
  let event' := with_Attempts event (goint.incr (Attempts event)) in
  handleSyncError a event err =
    if bool_decide (Attempts event' < MaxRetries (config a)) then
      (mkAgent (config a) (Push (queue a) event').2
         (logged a ++ [failedEntry event' err]), event')
    else
      (mkAgent (config a) (queue a)
         (logged a ++ [failedEntry event' err; droppedEntry event']), event').
Proof.
  simpl. unfold handleSyncError, log, with_queue. simpl.
  case_bool_decide; simpl.
  - by destruct (Push _ _).
  - by rewrite <- app_assoc.
Qed.

(** What the handler does, case by case: it adds one to Attempts (below the
    largest int).  When the new count is below MaxRetries it pushes the
    event, which puts it at the tail of the queue if the queue holds fewer
    than maxSize events; on a full queue the push is refused, its error is
    discarded and the queue stays as it was, with nothing logged beyond
    the failure.  When the new count has reached MaxRetries the event is
    not pushed and an error entry reports the drop. *)
Theorem handleSyncError_bounded_retry a event err :
  goint.minInt <= Attempts event < goint.maxInt →
  let out := handleSyncError a event err in
  let event' := out.2 in
  event' = with_Attempts event (Attempts event + 1) ∧
  (Attempts event' < MaxRetries (config a) →
     Len (queue a) < maxSize (queue a) →
     items (queue out.1) = items (queue a) ++ [event'] ∧
     logged out.1 = logged a ++ [failedEntry event' err]) ∧
  (Attempts event' < MaxRetries (config a) →
     Len (queue a) >= maxSize (queue a) →
     queue out.1 = queue a ∧
     logged out.1 = logged a ++ [failedEntry event' err]) ∧
  (Attempts event' >= MaxRetries (config a) →
     queue out.1 = queue a ∧
     logged out.1
       = logged a ++ [failedEntry event' err; droppedEntry event']).
Proof.
  intros Hrange. cbv zeta. rewrite handleSyncError_cases. cbv zeta.
  rewrite (incr_below_max _ Hrange).
  set (event' := with_Attempts event (Attempts event + 1)).
  case_bool_decide as Hcmp; cbn [fst snd Attempts queue logged];
    (split; [done|]); repeat split; intros; try lia; try done.
  - by rewrite Push_room.
  - by rewrite Push_full.
Qed.

(** An event that failed for the first time, on an agent with room in its
    queue; one that failed for the third time; and the first one again on
    an agent whose queue, of capacity 1, is full. *)
Lemma handleSyncError_bounded_retry_witness :
  let waiting := regionEvent "event-2" 0 in
  let a := agentHolding [waiting] in
  let full := with_queue a (mkChangeQueue [waiting] 1) in
  let retried := handleSyncError a (regionEvent "event-1" 0)
                   errors.ErrSyncFailed in
  let dropped := handleSyncError a (regionEvent "event-1" 2)
                   errors.ErrSyncFailed in
  let refused := handleSyncError full (regionEvent "event-1" 0)
                   errors.ErrSyncFailed in
  items (queue retried.1) = [waiting; regionEvent "event-1" 1] ∧
  items (queue dropped.1) = [waiting] ∧
  logged dropped.1
    = [failedEntry (regionEvent "event-1" 3) errors.ErrSyncFailed;
       droppedEntry (regionEvent "event-1" 3)] ∧
  queue refused.1 = queue full.
Proof.
  cbv zeta.
  assert (goint.minInt <= 0 < goint.maxInt) as Hrange0 by (vm_compute; done).
  assert (goint.minInt <= 2 < goint.maxInt) as Hrange2 by (vm_compute; done).
  destruct (handleSyncError_bounded_retry
              (agentHolding [regionEvent "event-2" 0])
              (regionEvent "event-1" 0) errors.ErrSyncFailed Hrange0)
    as (Hev0 & Hretry & _ & _).
  destruct (handleSyncError_bounded_retry
              (agentHolding [regionEvent "event-2" 0])
              (regionEvent "event-1" 2) errors.ErrSyncFailed Hrange2)
    as (Hev2 & _ & _ & Hdrop).
  destruct (handleSyncError_bounded_retry
              (with_queue (agentHolding [regionEvent "event-2" 0])
                 (mkChangeQueue [regionEvent "event-2" 0] 1))
              (regionEvent "event-1" 0) errors.ErrSyncFailed Hrange0)
    as (Hev0' & _ & Hfull & _).
  rewrite Hev0 in Hretry. rewrite Hev2 in Hdrop. rewrite Hev0' in Hfull.
  destruct Hretry as [Hq _]; [vm_compute; reflexivity..|].
  destruct Hdrop as [Hq2 Hlog2]; [vm_compute; discriminate|].
  destruct Hfull as [Hq3 _];
    [vm_compute; reflexivity | vm_compute; discriminate|].
  rewrite Hq, Hq2, Hlog2, Hq3. repeat split.
Defined.

(** C8 fails on the code when the queue is full.  The agent's queue, of
    capacity 10000, holds 10000 events when an event fails for the first
    time: its Attempts becomes 1, below MaxRetries = 3, so the claim has
    it re-enqueued; the handler's Push is refused, the error is thrown
    away, the event is not on the queue, and the log holds the failure
    warning only, no report of a drop. *)
Lemma handleSyncError_full_queue_loses_event :
  let waiting := regionEvent "event-2" 0 in
  let full := agentHolding (replicate (Z.to_nat 10000) waiting) in
  let out := handleSyncError full (regionEvent "event-1" 0)
               errors.ErrSyncFailed in
  Attempts out.2 = 1 ∧
  Attempts out.2 < MaxRetries (config full) ∧
  items (queue out.1) = replicate (Z.to_nat 10000) waiting ∧
  (out.2 ∉ items (queue out.1)) ∧
  logged out.1 = [failedEntry out.2 errors.ErrSyncFailed].
Proof.
  cbv zeta.
  assert (handleSyncError (agentHolding (replicate (Z.to_nat 10000) (regionEvent "event-2" 0)))
            (regionEvent "event-1" 0) errors.ErrSyncFailed
          = (mkAgent (mkAgentConfig "region-a" "push" 100 0 0 3)
               (mkChangeQueue (replicate (Z.to_nat 10000) (regionEvent "event-2" 0)) 10000)
               [failedEntry (regionEvent "event-1" 1) errors.ErrSyncFailed],
             regionEvent "event-1" 1)) as ->
    by (vm_compute; reflexivity).
  cbn [fst snd queue items logged Attempts regionEvent config MaxRetries
       agentHolding with_queue NewAgent].
  do 3 (split; [reflexivity|]). split; [|reflexivity].
  intros [Heq _]%elem_of_replicate. discriminate Heq.
Qed.

End agent.

(** ** The region registry *)

Section health.
Import registry fixtures.

Implicit Types (r : Registry) (region : RegionInfo) (now : time.Time).

(** Against a threshold inside the range of Duration, the saturated
    difference compares as the difference itself. *)
Lemma Sub_gt_threshold (t u : time.Time) (threshold : time.Duration) :
  time.minDuration <= threshold < time.maxDuration →
  time.Sub t u > threshold ↔ t - u > threshold.
Proof.
  unfold time.Sub, time.minDuration, time.maxDuration.
  change (2 ^ 63) with 9223372036854775808. intros H.
  repeat case_bool_decide; lia.
Qed.

Lemma thresholds_in_seconds :
  degradedThreshold = 60 * time.Second ∧ offlineThreshold = 300 * time.Second.
Proof. by vm_compute. Qed.

Lemma checkHealth_lookup r now (regionID : string) :
  regions (checkHealth r now) !! regionID
  = checkRegion now <$> regions r !! regionID.
Proof. unfold checkHealth. simpl. apply lookup_fmap. Qed.

(** checkRegion on the true elapsed time. *)
Lemma checkRegion_cases now region :
  let elapsed := now - LastSeenAt region in
  let state := State (Status region) in
  checkRegion now region =
    if decide (elapsed > offlineThreshold) then
      with_Status region (with_State (Status region) "offline")
    else if decide (elapsed > degradedThreshold ∧ state = "healthy") then
      with_Status region (with_State (Status region) "degraded")
    else region.
Proof.
  simpl. unfold checkRegion.
  pose proof (Sub_gt_threshold now (LastSeenAt region) offlineThreshold) as Hoff.
  pose proof (Sub_gt_threshold now (LastSeenAt region) degradedThreshold) as Hdeg.
  assert (time.minDuration <= offlineThreshold < time.maxDuration) as H1
    by (vm_compute; done).
  assert (time.minDuration <= degradedThreshold < time.maxDuration) as H2
    by (vm_compute; done).
  specialize (Hoff H1). specialize (Hdeg H2).
  repeat case_bool_decide; repeat case_decide; try tauto.
  destruct region as [? ? ? ? ? [st ? ? ?] ? ?]. simpl in *.
  unfold with_Status, with_State. simpl.
  assert (st = "offline") as -> by (by destruct (decide (st = "offline"))).
  done.
Qed.

(** C9: one evaluation of the health check keeps the set of regions and
    changes, of each region, at most the state, as a function of
    elapsed = now - LastSeenAt: above five minutes the state becomes
    offline whatever it was; otherwise, above sixty seconds a healthy
    region becomes degraded; in every other case the region is left as it
    was.  So a healthy region last seen 90 seconds ago becomes degraded and
    one last seen 301 seconds ago becomes offline. *)
Theorem checkHealth_by_elapsed r now (regionID : string) region :
  regions r !! regionID = Some region →
  let elapsed := now - LastSeenAt region in
  let state := State (Status region) in
  ∃ region',
    regions (checkHealth r now) !! regionID = Some region' ∧
    dom (regions (checkHealth r now)) = dom (regions r) ∧
    region' = with_Status region
                (with_State (Status region) (State (Status region'))) ∧
    (elapsed > 5 * time.Minute → State (Status region') = "offline") ∧
    (elapsed <= 5 * time.Minute → elapsed > 60 * time.Second →
       state = "healthy" → State (Status region') = "degraded") ∧
    (elapsed <= 5 * time.Minute →
       elapsed <= 60 * time.Second ∨ state ≠ "healthy" →
       region' = region) ∧
    (state = "healthy" → elapsed = 90 * time.Second →
       State (Status region') = "degraded") ∧
    (elapsed = 301 * time.Second → State (Status region') = "offline").
Proof.
  intros Hreg. cbv zeta. exists (checkRegion now region).
  split; [by rewrite checkHealth_lookup, Hreg|].
  split; [unfold checkHealth; simpl; apply dom_fmap_L|].
  rewrite checkRegion_cases. cbv zeta.
  unfold offlineThreshold, degradedThreshold, time.Minute, time.Second,
    time.Nanosecond.
  destruct region as [? ? ? ? ? [st ? ? ?] ? ?]. simpl in *.
  destruct (decide _) as [Hoff|Hoff];
    [|destruct (decide _) as [[Hdeg Hst]|Hno]];
    simpl; repeat split; intros; try done; try lia;
    try (exfalso; apply Hno; split; [lia|done]); by intuition lia.
Qed.

(** A region that registered at T, seen again never: healthy after 60
    seconds, degraded after 90 and after 300, offline after 301. *)
Lemma checkHealth_by_elapsed_witness :
  stateOf registryAtT = Some "healthy" ∧
  stateOf (checkHealth registryAtT (T + 90 * time.Second)) = Some "degraded" ∧
  stateOf (checkHealth registryAtT (T + 301 * time.Second)) = Some "offline".
Proof.
  assert (regions registryAtT !! "region-1"
          = Some (mkRegionInfo "region-1" "Test Region" "localhost:9090"
                    (mkGeoLocation 0%float 0%float "" "") (mkCapacity 0 0 0)
                    (mkRegionStatus "healthy" 0 0%float T) T T)) as Hreg
    by (vm_compute; reflexivity).
  split; [vm_compute; reflexivity|]. unfold stateOf. split.
  - destruct (checkHealth_by_elapsed registryAtT (T + 90 * time.Second)
                "region-1" _ Hreg)
      as (region' & -> & _ & _ & _ & _ & _ & Hdeg & _).
    simpl. rewrite Hdeg; [reflexivity | reflexivity | vm_compute; reflexivity].
  - destruct (checkHealth_by_elapsed registryAtT (T + 301 * time.Second)
                "region-1" _ Hreg)
      as (region' & -> & _ & _ & _ & _ & _ & _ & Hoff).
    simpl. rewrite Hoff; [reflexivity | vm_compute; reflexivity].
Defined.

(** The bounds are strict, and a degraded region is not healed by the
    check. *)
Example checkHealth_boundaries :
  stateOf (checkHealth registryAtT (T + 60 * time.Second)) = Some "healthy" ∧
  stateOf (checkHealth registryAtT (T + 300 * time.Second)) = Some "degraded" ∧
  stateOf (checkHealth (checkHealth registryAtT (T + 90 * time.Second))
             (T + 90 * time.Second)) = Some "degraded".
Proof. vm_compute. done. Qed.

(** A heartbeat overwrites the status with the one reported and resets
    LastSeenAt. *)
Example Heartbeat_restores :
  let offline := checkHealth registryAtT (T + 301 * time.Second) in
  let now := T + 302 * time.Second in
  let beaten := (Heartbeat offline "region-1"
                   (mkRegionStatus "healthy" 0 0%float 0) now now).2 in
  stateOf beaten = Some "healthy" ∧
  stateOf (checkHealth beaten (now + 30 * time.Second)) = Some "healthy".
Proof. vm_compute. done. Qed.

End health.

(** * Further properties of the code *)

(** ** Vector clocks: comparison, merge and increment *)

Section clock_operations.
Import regionmeta fixtures.

Implicit Types (m o c : gmap string N) (k : string) (a b : VClock).

Lemma not_someLess m o :
  ¬ someLess o m ↔ ∀ k, (at_key m k <= at_key o k)%N.
Proof.
  unfold someLess. split.
  - intros Hno k. destruct (decide (at_key m k <= at_key o k)%N); [done|].
    exfalso. apply Hno. exists k. lia.
  - intros Hle [k Hk]. specialize (Hle k). lia.
Qed.

(** The relation of two non-nil clocks, by which of the two has a
    strictly smaller counter somewhere. *)
Lemma compareClocks_by_someLess m o :
  (compareClocks (Some m) (Some o) = ClockBefore
     ↔ someLess m o ∧ ¬ someLess o m) ∧
  (compareClocks (Some m) (Some o) = ClockAfter
     ↔ ¬ someLess m o ∧ someLess o m) ∧
  (compareClocks (Some m) (Some o) = ClockEqual
     ↔ ¬ someLess m o ∧ ¬ someLess o m) ∧
  (compareClocks (Some m) (Some o) = ClockConcurrent
     ↔ someLess m o ∧ someLess o m).
Proof.
  pose proof (lessThan_spec m o) as Hlt.
  pose proof (greaterThan_spec m o) as Hgt. simpl.
  destruct (compareLoop m o (elements (allKeys m o)) (false, false))
    as [[] []]; simpl in *; intuition congruence.
Qed.

(** For non-nil clocks, with a missing key read as 0: Equal means that all
    counters agree; Before that none of the receiver's is greater and one
    is smaller; After the reverse; Concurrent that one is smaller and
    another greater. *)
Theorem CompareClock_characterisation (A : FileMetadata) m o :
  VectorClock A = Some m →
  (CompareClock A (Some o) = ClockEqual
     ↔ ∀ k, at_key m k = at_key o k) ∧
  (CompareClock A (Some o) = ClockBefore
     ↔ (∀ k, (at_key m k <= at_key o k)%N) ∧
       ∃ k, (at_key m k < at_key o k)%N) ∧
  (CompareClock A (Some o) = ClockAfter
     ↔ (∀ k, (at_key o k <= at_key m k)%N) ∧
       ∃ k, (at_key o k < at_key m k)%N) ∧
  (CompareClock A (Some o) = ClockConcurrent
     ↔ (∃ k, (at_key m k < at_key o k)%N) ∧
       ∃ k, (at_key o k < at_key m k)%N).
Proof.
  intros HA. unfold CompareClock. rewrite HA.
  destruct (compareClocks_by_someLess m o) as (HB & HAf & HE & HC).
  split; [|split; [|split]].
  - rewrite HE, !not_someLess. split.
    + intros [H1 H2] k. specialize (H1 k). specialize (H2 k). lia.
    + intros Heq. split; intros k; rewrite Heq; lia.
  - rewrite HB, not_someLess. unfold someLess. tauto.
  - rewrite HAf, not_someLess. unfold someLess. tauto.
  - rewrite HC. unfold someLess. tauto.
Qed.

Lemma CompareClock_characterisation_witness :
  CompareClock (metadata.FileMetadata
                  (file "f" "" "" (vc [("a", 1); ("b", 0)]%N) 0))
    (vc [("a", 1)]%N) = ClockEqual.
Proof.
  assert (VectorClock (metadata.FileMetadata
                         (file "f" "" "" (vc [("a", 1); ("b", 0)]%N) 0))
          = Some (list_to_map [("a", 1); ("b", 0)]%N)) as Hclock
    by reflexivity.
  apply (proj1 (CompareClock_characterisation _ _ _ Hclock)).
  intros k. unfold at_key. simpl.
  destruct (decide (k = "a")) as [->|Ha]; [vm_compute; reflexivity|].
  destruct (decide (k = "b")) as [->|Hb]; [vm_compute; reflexivity|].
  rewrite !lookup_insert_ne by done. reflexivity.
Defined.

(** Happened-before is transitive, nil clocks included. *)
Theorem CompareClock_before_transitive (A B C : FileMetadata) :
  CompareClock A (VectorClock B) = ClockBefore →
  CompareClock B (VectorClock C) = ClockBefore →
  CompareClock A (VectorClock C) = ClockBefore.
Proof.
  unfold CompareClock.
  destruct (VectorClock A) as [ma|], (VectorClock B) as [mb|],
    (VectorClock C) as [mc|]; try done.
  intros [H1 H1']%compareClocks_by_someLess
         [H2 H2']%compareClocks_by_someLess.
  apply compareClocks_by_someLess.
  rewrite not_someLess in *. destruct H1 as [k Hk]. split.
  - exists k. specialize (H2' k). lia.
  - intros j. specialize (H1' j). specialize (H2' j). lia.
Qed.

Lemma CompareClock_before_transitive_witness :
  CompareClock (metadata.FileMetadata (file "f" "" "" None 0))
    (vc [("a", 2)]%N) = ClockBefore.
Proof.
  apply (CompareClock_before_transitive _
           (metadata.FileMetadata (file "f" "" "" (vc [("a", 1)]%N) 0))
           (metadata.FileMetadata (file "f" "" "" (vc [("a", 2)]%N) 0)));
    vm_compute; reflexivity.
Defined.

(** A clock compared with itself is Equal. *)
Lemma compareClocks_refl a : compareClocks a a = ClockEqual.
Proof.
  destruct a as [m|]; [|done].
  apply compareClocks_by_someLess. unfold someLess.
  split; intros [k Hk]; lia.
Qed.

(** Go leaves the order of a range over a map open.  Whatever order the
    loop of CompareClock sees the keys in, and however often it sees one,
    the relation is the same. *)
Theorem CompareClock_any_range_order m o (ks : list string) :
  (∀ k, k ∈ ks ↔ k ∈ allKeys m o) →
  relationOf (compareLoop m o ks (false, false))
  = compareClocks (Some m) (Some o).
Proof.
  intros Hks. simpl. f_equal. apply compareLoop_range_order.
  intros k. rewrite Hks. by rewrite elem_of_elements.
Qed.

Lemma CompareClock_any_range_order_witness :
  relationOf (compareLoop {[ "a" := 2%N; "b" := 1%N ]}
                {[ "a" := 1%N; "b" := 2%N ]} ["b"; "a"; "b"] (false, false))
  = ClockConcurrent.
Proof.
  rewrite (CompareClock_any_range_order _ _ ["b"; "a"; "b"]).
  - vm_compute. reflexivity.
  - intros k. unfold allKeys. rewrite !dom_insert_L, !dom_singleton_L.
    set_solver.
Defined.

End clock_operations.

Section clock_updates.
Import regionmeta fixtures.

Implicit Types (m : FileMetadata) (vc o c : gmap string N) (k : string)
  (other : VClock).

Lemma at_key_insert vc k (v : N) k' :
  at_key (<[k := v]> vc) k' = if decide (k = k') then v else at_key vc k'.
Proof.
  unfold at_key. destruct (decide (k = k')) as [->|Hne].
  - by rewrite lookup_insert_eq.
  - by rewrite lookup_insert_ne.
Qed.

(** The loop of MergeClock, key by key, when no key is yielded twice. *)
Lemma mergeLoop_lookup (l : list (string * N)) :
  NoDup l.*1 →
  ∀ vc k,
    mergeLoop vc l !! k =
      match (list_to_map l : gmap string N) !! k with
      | Some v => if (at_key vc k <? v)%N then Some v else vc !! k
      | None => vc !! k
      end.
Proof.
  induction l as [|[k' v'] l IH]; intros Hnd vc k; [done|].
  apply NoDup_cons in Hnd as [Hk' Hnd]. simpl.
  unfold mergeLoop in *. simpl. rewrite (IH Hnd). unfold mergeStep. simpl.
  destruct (decide (k' = k)) as [->|Hne].
  - rewrite lookup_insert_eq.
    rewrite (not_elem_of_list_to_map_1 l k Hk').
    destruct (at_key vc k <? v')%N; [by rewrite lookup_insert_eq|done].
  - rewrite lookup_insert_ne by done.
    assert (∀ vc', vc' = vc ∨ vc' = <[k' := v']> vc →
              vc' !! k = vc !! k ∧ at_key vc' k = at_key vc k) as Hsame.
    { intros vc' [->| ->]; [done|].
      rewrite at_key_insert, lookup_insert_ne, decide_False by done. done. }
    destruct (at_key vc k' <? v')%N;
      [destruct (Hsame (<[k' := v']> vc)) as [-> ->]; [by right|done]|done].
Qed.

Lemma mergeLoop_entries_lookup vc other k :
  mergeLoop vc (entriesOf other) !! k =
    match madeClock other !! k with
    | Some v => if (at_key vc k <? v)%N then Some v else vc !! k
    | None => vc !! k
    end.
Proof.
  destruct other as [o|]; simpl; [|by rewrite lookup_empty].
  rewrite mergeLoop_lookup by apply NoDup_fst_map_to_list.
  by rewrite list_to_map_to_list.
Qed.

Lemma mergeLoop_entries_at_key vc other k :
  at_key (mergeLoop vc (entriesOf other)) k
  = N.max (at_key vc k) (at_key (madeClock other) k).
Proof.
  unfold at_key at 1. rewrite mergeLoop_entries_lookup. unfold at_key.
  destruct (madeClock other !! k) as [v|]; simpl; [|lia].
  destruct (N.ltb_spec (default 0%N (vc !! k)) v); simpl; lia.
Qed.

(** A clock none of whose counters is below the other's is After or
    Equal. *)
Lemma compareClocks_dominating c o :
  (∀ k, (at_key o k <= at_key c k)%N) →
  compareClocks (Some c) (Some o) = ClockAfter ∨
  compareClocks (Some c) (Some o) = ClockEqual.
Proof.
  intros Hle%not_someLess.
  destruct (compareClocks (Some c) (Some o)) eqn:E; auto;
    apply compareClocks_by_someLess in E; tauto.
Qed.

(** MergeClock leaves a non-nil clock whose counter at every key is the
    greater of the two counters (a nil clock and a missing key read 0), so
    the merge is commutative key by key; nothing else of the metadata
    changes, in particular neither Version nor UpdatedAt. *)
Theorem MergeClock_pointwise_max m other :
  ∃ c,
    MergeClock m other = with_versioning m (Some c) (Version m) (UpdatedAt m) ∧
    (∀ k, at_key c k = N.max (at_key (madeClock (VectorClock m)) k)
                         (at_key (madeClock other) k)) ∧
    (∀ m' c', VectorClock m' = other →
       VectorClock (MergeClock m' (VectorClock m)) = Some c' →
       ∀ k, at_key c' k = at_key c k).
Proof.
  eexists. split; [reflexivity|]. split.
  - intros k. apply mergeLoop_entries_at_key.
  - intros m' c' <- Hc' k. simpl in Hc'. injection Hc' as <-.
    rewrite !mergeLoop_entries_at_key. lia.
Qed.

(** After MergeClock the clock is never Before nor Concurrent with the
    clock merged in, nor with the clock it had. *)
Theorem MergeClock_dominates m other :
  let merged := MergeClock m other in
  (CompareClock merged other = ClockAfter ∨
   CompareClock merged other = ClockEqual) ∧
  (CompareClock merged (VectorClock m) = ClockAfter ∨
   CompareClock merged (VectorClock m) = ClockEqual).
Proof.
  cbv zeta. unfold CompareClock. simpl. split.
  - destruct other as [o|]; [|by left].
    apply compareClocks_dominating. intros k.
    rewrite mergeLoop_entries_at_key. simpl. lia.
  - destruct (VectorClock m) as [vc|]; [|by left].
    apply compareClocks_dominating. intros k.
    rewrite mergeLoop_entries_at_key. simpl. lia.
Qed.

Lemma mergeLoop_absorbed c other :
  (∀ k, (at_key (madeClock other) k <= at_key c k)%N) →
  mergeLoop c (entriesOf other) = c.
Proof.
  intros Hle. apply map_eq. intros k. rewrite mergeLoop_entries_lookup.
  specialize (Hle k). unfold at_key in Hle at 1.
  destruct (madeClock other !! k) as [v|]; [|done]. simpl in Hle.
  destruct (N.ltb_spec (at_key c k) v); [lia|done].
Qed.

(** Merging the same clock a second time changes nothing, and merging its
    own clock into a metadata whose clock is not nil leaves it as it
    is. *)
Theorem MergeClock_idempotent m other :
  MergeClock (MergeClock m other) other = MergeClock m other ∧
  (VectorClock m ≠ None → MergeClock m (VectorClock m) = m).
Proof.
  split.
  - unfold MergeClock at 1. simpl. rewrite mergeLoop_absorbed; [done|].
    intros k. rewrite mergeLoop_entries_at_key. lia.
  - intros Hsome. unfold MergeClock.
    rewrite mergeLoop_absorbed by (intros k; lia).
    destruct m; simpl in *. destruct VectorClock0; done.
Qed.

Lemma MergeClock_idempotent_witness :
  let m := metadata.FileMetadata
             (file "id" "name" "/path"
                (vc [("region-a", 2); ("region-b", 3)]%N) 0) in
  MergeClock m (VectorClock m) = m.
Proof.
  apply (proj2 (MergeClock_idempotent _ None)). vm_compute. discriminate.
Defined.

(** The order in which the range over the other clock yields its entries
    does not matter to the merged clock. *)
Theorem MergeClock_any_range_order vc o (entries : list (string * N)) :
  entries ≡ₚ map_to_list o →
  mergeLoop vc entries = mergeLoop vc (entriesOf (Some o)).
Proof.
  intros Hperm. apply map_eq. intros k.
  assert (NoDup entries.*1) as Hnd.
  { rewrite Hperm. apply NoDup_fst_map_to_list. }
  rewrite mergeLoop_lookup by done. rewrite mergeLoop_entries_lookup. simpl.
  assert ((list_to_map entries : gmap string N) = o) as ->; [|done].
  rewrite <- (list_to_map_to_list o). by apply list_to_map_proper.
Qed.

Lemma MergeClock_any_range_order_witness :
  mergeLoop {[ "region-a" := 2%N ]} [("region-b", 5%N); ("region-a", 1%N)]
  = mergeLoop {[ "region-a" := 2%N ]}
      (entriesOf (vc [("region-a", 1); ("region-b", 5)]%N)).
Proof.
  apply MergeClock_any_range_order.
  apply NoDup_Permutation.
  - apply NoDup_cons. split; [set_solver|]. apply NoDup_singleton.
  - apply NoDup_map_to_list.
  - intros [k v]. rewrite elem_of_map_to_list. simpl.
    rewrite lookup_insert_Some, lookup_insert_Some, lookup_empty.
    rewrite !elem_of_cons, elem_of_nil. naive_solver.
Defined.

(** TestFileMetadata_MergeClock. *)
Example MergeClock_test :
  let m := metadata.FileMetadata
             (file "id" "name" "/path"
                (vc [("region-a", 2); ("region-b", 3)]%N) 0) in
  VectorClock
    (MergeClock m (vc [("region-a", 1); ("region-b", 5); ("region-c", 2)]%N))
  = vc [("region-a", 2); ("region-b", 5); ("region-c", 2)]%N.
Proof. vm_compute. reflexivity. Qed.

End clock_updates.

Section clock_increment.
Import regionmeta fixtures.

Implicit Types (m : FileMetadata) (vc : gmap string N) (k : string).

(** The largest uint64 and the largest int64. *)
Lemma uint64_incr_below_max (v : N) :
  (v < 2 ^ 64 - 1)%N → uint64_incr v = (v + 1)%N.
Proof.
  unfold uint64_incr. change (2 ^ 64)%N with 18446744073709551616%N.
  intros H. apply N.mod_small. lia.
Qed.

Lemma int64_incr_below_max (z : Z) :
  - 2 ^ 63 <= z < 2 ^ 63 - 1 → int64_incr z = z + 1.
Proof.
  unfold int64_incr. change (2 ^ 63) with 9223372036854775808.
  change (2 ^ 64) with 18446744073709551616.
  intros H. rewrite Z.mod_small by lia. lia.
Qed.

Lemma IncrementClock_at_key m regionID (now : time.Time) k :
  at_key (madeClock (VectorClock (IncrementClock m regionID now))) k
  = if decide (regionID = k)
    then uint64_incr (at_key (madeClock (VectorClock m)) regionID)
    else at_key (madeClock (VectorClock m)) k.
Proof. simpl. apply at_key_insert. Qed.

(** Below the largest uint64, IncrementClock adds one to the counter of
    the region and leaves the other counters; the new clock is After the
    old one and the old one Before the new, also when the old clock was
    nil; UpdatedAt is the current instant, and Version grows by one below
    the largest int64. *)
Theorem IncrementClock_advances m regionID (now : time.Time) :
  (at_key (madeClock (VectorClock m)) regionID < 2 ^ 64 - 1)%N →
  let m' := IncrementClock m regionID now in
  (∃ c', VectorClock m' = Some c' ∧
     at_key c' regionID
       = (at_key (madeClock (VectorClock m)) regionID + 1)%N ∧
     ∀ k, k ≠ regionID → c' !! k = madeClock (VectorClock m) !! k) ∧
  CompareClock m' (VectorClock m) = ClockAfter ∧
  CompareClock m (VectorClock m') = ClockBefore ∧
  UpdatedAt m' = now ∧
  (- 2 ^ 63 <= Version m < 2 ^ 63 - 1 → Version m' = Version m + 1).
Proof.
  intros Hroom. cbv zeta.
  assert (CompareClock (IncrementClock m regionID now) (VectorClock m)
          = ClockAfter) as Hafter.
  { unfold CompareClock. simpl.
    destruct (VectorClock m) as [vc|] eqn:Hvc; [|done]. simpl in *.
    apply compareClocks_by_someLess. rewrite not_someLess. split.
    - intros k. rewrite at_key_insert, uint64_incr_below_max by done.
      case_decide; subst; lia.
    - exists regionID.
      rewrite at_key_insert, decide_True, uint64_incr_below_max by done.
      lia. }
  split; [|split; [done|split; [|split]]].
  - eexists. split; [reflexivity|]. split.
    + by rewrite at_key_insert, decide_True, uint64_incr_below_max.
    + intros k Hk. by rewrite lookup_insert_ne.
  - unfold CompareClock in *.
    rewrite (compareClocks_converse
               (VectorClock (IncrementClock m regionID now)) (VectorClock m)).
    by rewrite Hafter.
  - done.
  - intros Hv. simpl. by apply int64_incr_below_max.
Qed.

(** TestFileMetadata_IncrementClock, first step. *)
Lemma IncrementClock_advances_witness :
  let m := NewFileMetadata "id" "name" "/path" T in
  let m' := IncrementClock m "region-a" (T + 1) in
  VectorClock m' = vc [("region-a", 1)]%N ∧
  Version m' = 2 ∧
  CompareClock m' (VectorClock m) = ClockAfter.
Proof.
  cbv zeta.
  assert (at_key (madeClock (VectorClock (NewFileMetadata "id" "name" "/path" T)))
            "region-a" < 2 ^ 64 - 1)%N as Hroom by (vm_compute; reflexivity).
  destruct (IncrementClock_advances _ "region-a" (T + 1) Hroom)
    as (_ & Hafter & _ & _ & Hversion).
  split; [vm_compute; reflexivity|]. split; [|exact Hafter].
  rewrite Hversion; [reflexivity|].
  clear. vm_compute. split; [discriminate | reflexivity].
Defined.

(** At the largest uint64 the counter wraps to 0 and the new clock is
    Before the old one. *)
Example IncrementClock_wraps :
  let m := metadata.FileMetadata
             (file "id" "" "" (vc [("region-a", 18446744073709551615)]%N) 0) in
  let m' := IncrementClock m "region-a" 1 in
  VectorClock m' = vc [("region-a", 0)]%N ∧
  CompareClock m' (VectorClock m) = ClockBefore.
Proof. vm_compute. done. Qed.

(** On one receiver the two descriptions of IncrementClock agree: what
    the struct reads after the in-place update is what IncrementClock
    returns on what it read before. *)
Lemma IncrementClockIn_deref (h : Maps) (ref : MetadataRef)
    (regionID : string) (now : time.Time) :
  (∀ l, clockAt ref = Some l → is_Some (h !! l)) →
  deref (IncrementClockIn h ref regionID now).1
        (IncrementClockIn h ref regionID now).2
  = IncrementClock (deref h ref) regionID now.
Proof.
  intros Hlive. unfold deref, IncrementClockIn, IncrementClock, clockOf.
  destruct (clockAt ref) as [l|]; simpl.
  - destruct (Hlive l eq_refl) as [c Hc]. rewrite Hc. simpl.
    by rewrite lookup_insert_eq.
  - by rewrite !lookup_insert_eq.
Qed.

Lemma increments_someLess vc (a b : string) :
  a ≠ b →
  (at_key vc b < 2 ^ 64 - 1)%N →
  someLess (<[a := uint64_incr (at_key vc a)]> vc)
           (<[b := uint64_incr (at_key vc b)]> vc).
Proof.
  intros Hab Hb. exists b.
  rewrite !at_key_insert, decide_False, decide_True by done.
  rewrite uint64_incr_below_max by done. lia.
Qed.

(** Two regions each increment their copy of one version, one after the
    other, the counters being below the largest uint64.  When the two
    copies hold their clocks in different map objects, as copies made in
    two regions do, the clocks end Concurrent in either direction and
    Detect reports the pair as a conflict.  When the copies are struct
    copies that share one map object, both increments land in it: the two
    read the same clock, which compares Equal, and Detect reports
    nothing. *)
Theorem concurrent_increments_conflict (h : Maps) (m1 m2 : MetadataRef)
    (c : gmap string N) (l1 l2 : nat) (r1 r2 : string) (t1 t2 : time.Time)
    (resolver : conflict.Resolver)
    (local remote : metadata.GlobalFileMetadata) (stamp : string)
    (now : time.Time) :
  r1 ≠ r2 →
  clockAt m1 = Some l1 → clockAt m2 = Some l2 →
  h !! l1 = Some c → h !! l2 = Some c →
  (at_key c r1 < 2 ^ 64 - 1)%N →
  (at_key c r2 < 2 ^ 64 - 1)%N →
  let first := IncrementClockIn h m1 r1 t1 in
  let second := IncrementClockIn first.1 m2 r2 t2 in
  metadata.FileMetadata local = deref second.1 first.2 →
  metadata.FileMetadata remote = deref second.1 second.2 →
  (l1 ≠ l2 →
     metadata.CompareClock local (metadata.VectorClock remote)
       = ClockConcurrent ∧
     metadata.CompareClock remote (metadata.VectorClock local)
       = ClockConcurrent ∧
     is_Some (conflict.Detect resolver local remote stamp now)) ∧
  (l1 = l2 →
     metadata.VectorClock local = metadata.VectorClock remote ∧
     metadata.CompareClock local (metadata.VectorClock remote) = ClockEqual ∧
     conflict.Detect resolver local remote stamp now = None).
Proof.
  intros Hne Hm1 Hm2 Hl1 Hl2 H1 H2. cbv zeta.
  unfold IncrementClockIn. rewrite Hm1, Hm2. cbn [fst snd].
  rewrite Hl1. cbn [default].
  intros Hlocal Hremote.
  unfold conflict.Detect, metadata.CompareClock, metadata.VectorClock,
    CompareClock.
  rewrite Hlocal, Hremote. unfold deref, clockOf. cbn.
  split.
  - intros Hdiff.
    rewrite (lookup_insert_ne _ l1 l2) by done. rewrite Hl2. cbn.
    rewrite lookup_insert_eq.
    rewrite (lookup_insert_ne _ l2 l1) by done. rewrite lookup_insert_eq.
    assert (compareClocks
              (Some (<[r1 := uint64_incr (at_key c r1)]> c))
              (Some (<[r2 := uint64_incr (at_key c r2)]> c))
            = ClockConcurrent) as Hconc.
    { apply compareClocks_by_someLess.
      split; apply increments_someLess; auto. }
    rewrite Hconc. split; [done|]. split; [|by eexists].
    apply compareClocks_by_someLess.
    split; apply increments_someLess; auto.
  - intros <-. rewrite !lookup_insert_eq.
    rewrite compareClocks_refl. done.
Qed.

(** Two copies of a version at the clock {region-a: 1}: with the clock in
    two map objects, and with the one object shared. *)
Lemma concurrent_increments_conflict_witness :
  let base := NewFileMetadata "file-1" "a.txt" "/a.txt" T in
  let h : Maps := {[ 0%nat := {[ "region-a" := 1%N ]};
                     1%nat := {[ "region-a" := 1%N ]} ]} in
  let own := mkMetadataRef base (Some 0%nat) in
  let apart := mkMetadataRef base (Some 1%nat) in
  let global := λ m, metadata.mkGlobalFileMetadata m [] "" 0 in
  let resolver := conflict.NewResolver conflict.StrategyLWW in
  let first := IncrementClockIn h own "region-a" (T + 1) in
  let second := IncrementClockIn first.1 apart "region-b" (T + 2) in
  let shared := IncrementClockIn first.1 own "region-b" (T + 2) in
  is_Some (conflict.Detect resolver (global (deref second.1 first.2))
             (global (deref second.1 second.2)) "s" (T + 3)) ∧
  conflict.Detect resolver (global (deref shared.1 first.2))
    (global (deref shared.1 shared.2)) "s" (T + 3) = None.
Proof.
  cbv zeta.
  set (base := NewFileMetadata "file-1" "a.txt" "/a.txt" T).
  set (h := ({[ 0%nat := {[ "region-a" := 1%N ]};
                1%nat := {[ "region-a" := 1%N ]} ]} : Maps)).
  set (own := mkMetadataRef base (Some 0%nat)).
  set (apart := mkMetadataRef base (Some 1%nat)).
  assert (h !! 0%nat = Some ({[ "region-a" := 1%N ]} : gmap string N)) as H0
    by reflexivity.
  assert (h !! 1%nat = Some ({[ "region-a" := 1%N ]} : gmap string N)) as H1
    by reflexivity.
  assert (at_key ({[ "region-a" := 1%N ]} : gmap string N) "region-a"
          < 2 ^ 64 - 1)%N as Ha by (vm_compute; reflexivity).
  assert (at_key ({[ "region-a" := 1%N ]} : gmap string N) "region-b"
          < 2 ^ 64 - 1)%N as Hb by (vm_compute; reflexivity).
  assert ("region-a" ≠ "region-b") as Hne by discriminate.
  split.
  - refine (proj2 (proj2 (proj1 (concurrent_increments_conflict h own apart _
              0%nat 1%nat "region-a" "region-b" (T + 1) (T + 2) _
              (metadata.mkGlobalFileMetadata _ [] "" 0)
              (metadata.mkGlobalFileMetadata _ [] "" 0)
              "s" (T + 3) Hne eq_refl eq_refl H0 H1 Ha Hb eq_refl eq_refl)
              _))).
    discriminate.
  - refine (proj2 (proj2 (proj2 (concurrent_increments_conflict h own own _
              0%nat 0%nat "region-a" "region-b" (T + 1) (T + 2) _
              (metadata.mkGlobalFileMetadata _ [] "" 0)
              (metadata.mkGlobalFileMetadata _ [] "" 0)
              "s" (T + 3) Hne eq_refl eq_refl H0 H0 Ha Hb eq_refl eq_refl)
              eq_refl))).
Defined.

(** The clocks of that witness: {region-a: 2} against {region-a: 1,
    region-b: 1} when apart; {region-a: 2, region-b: 1} for both when
    shared. *)
Example increments_apart_and_shared :
  let base := NewFileMetadata "file-1" "a.txt" "/a.txt" T in
  let h : Maps := {[ 0%nat := {[ "region-a" := 1%N ]};
                     1%nat := {[ "region-a" := 1%N ]} ]} in
  let own := mkMetadataRef base (Some 0%nat) in
  let apart := mkMetadataRef base (Some 1%nat) in
  let first := IncrementClockIn h own "region-a" (T + 1) in
  let second := IncrementClockIn first.1 apart "region-b" (T + 2) in
  let shared := IncrementClockIn first.1 own "region-b" (T + 2) in
  clockOf second.1 first.2 = vc [("region-a", 2)]%N ∧
  clockOf second.1 second.2 = vc [("region-a", 1); ("region-b", 1)]%N ∧
  clockOf shared.1 first.2 = vc [("region-a", 2); ("region-b", 1)]%N ∧
  clockOf shared.1 shared.2 = vc [("region-a", 2); ("region-b", 1)]%N.
Proof. cbv zeta. repeat split; vm_compute; reflexivity. Qed.

(** A nil clock gets a map object of its own at a fresh address. *)
Example IncrementClockIn_nil :
  let base := NewFileMetadata "file-1" "a.txt" "/a.txt" T in
  let h : Maps := {[ 0%nat := {[ "region-a" := 1%N ]} ]} in
  let out := IncrementClockIn h (mkMetadataRef base None) "region-b" (T + 1) in
  clockOf out.1 out.2 = vc [("region-b", 1)]%N ∧
  out.1 !! 0%nat = Some {[ "region-a" := 1%N ]} ∧
  clockAt out.2 ≠ Some 0%nat.
Proof. vm_compute. repeat split; discriminate. Qed.

End clock_increment.

(** ** The global metadata manager: register, get, update, delete *)

Section manager_operations.
Import metadata fixtures.

Implicit Types (m : EtcdManager) (meta : GlobalFileMetadata) (id : string).

Lemma Get_lookup m id :
  EtcdManager_Get m id
  = match store m !! id with
    | Some g => (Some g, None)
    | None => (None, Some errors.ErrNotFound)
    end.
Proof. unfold EtcdManager_Get. by destruct (store m !! id). Qed.

(** Register stores a file whose ID is free, after which Get returns it
    and every other ID reads as before; an ID already stored is refused
    with ErrAlreadyExists and the manager stays as it was. *)
Theorem Register_then_Get m meta :
  (store m !! ID meta = None →
     (EtcdManager_Register m meta).1 = None ∧
     EtcdManager_Get (EtcdManager_Register m meta).2 (ID meta)
       = (Some meta, None) ∧
     ∀ id, id ≠ ID meta →
       EtcdManager_Get (EtcdManager_Register m meta).2 id
       = EtcdManager_Get m id) ∧
  (is_Some (store m !! ID meta) →
     EtcdManager_Register m meta = (Some errors.ErrAlreadyExists, m)).
Proof.
  unfold EtcdManager_Register. split.
  - intros ->. simpl. split; [done|]. rewrite !Get_lookup. simpl.
    rewrite lookup_insert_eq. split; [done|].
    intros id Hne. rewrite !Get_lookup. simpl.
    by rewrite lookup_insert_ne.
  - by intros [g ->].
Qed.

Lemma Register_then_Get_witness :
  let meta := file "file-1" "a.txt" "/a.txt" None 0 in
  let m := (EtcdManager_Register emptyManager meta).2 in
  EtcdManager_Get m "file-1" = (Some meta, None) ∧
  EtcdManager_Register m meta = (Some errors.ErrAlreadyExists, m).
Proof.
  cbv zeta. split.
  - apply (proj1 (Register_then_Get emptyManager
                    (file "file-1" "a.txt" "/a.txt" None 0))).
    reflexivity.
  - apply (proj2 (Register_then_Get _ (file "file-1" "a.txt" "/a.txt" None 0))).
    vm_compute. by eexists.
Defined.

(** Delete removes a stored file, after which Get and GetLocations answer
    ErrNotFound for it and every other ID reads as before; an absent ID
    is answered with ErrNotFound and the manager stays as it was.  In
    both cases the ID is free afterwards: a Register of it succeeds. *)
Theorem Delete_then_Get m id :
  (is_Some (store m !! id) →
     (EtcdManager_Delete m id).1 = None ∧
     EtcdManager_Get (EtcdManager_Delete m id).2 id
       = (None, Some errors.ErrNotFound) ∧
     EtcdManager_GetLocations (EtcdManager_Delete m id).2 id
       = ([], Some errors.ErrNotFound) ∧
     ∀ id', id' ≠ id →
       EtcdManager_Get (EtcdManager_Delete m id).2 id'
       = EtcdManager_Get m id') ∧
  (store m !! id = None →
     EtcdManager_Delete m id = (Some errors.ErrNotFound, m)) ∧
  (∀ meta, ID meta = id →
     (EtcdManager_Register (EtcdManager_Delete m id).2 meta).1 = None).
Proof.
  unfold EtcdManager_Delete. split; [|split].
  - intros [g ->]. simpl. split; [done|].
    unfold EtcdManager_GetLocations. rewrite !Get_lookup. simpl.
    rewrite lookup_delete_eq. split; [done|]. split; [done|].
    intros id' Hne. rewrite !Get_lookup. simpl.
    by rewrite lookup_delete_ne.
  - by intros ->.
  - intros meta <-. unfold EtcdManager_Register.
    destruct (store m !! ID meta) eqn:E; simpl.
    + by rewrite lookup_delete_eq.
    + by rewrite E.
Qed.

Lemma Delete_then_Get_witness :
  let meta := file "file-1" "a.txt" "/a.txt" None 0 in
  let m := (EtcdManager_Register emptyManager meta).2 in
  EtcdManager_Get (EtcdManager_Delete m "file-1").2 "file-1"
    = (None, Some errors.ErrNotFound) ∧
  EtcdManager_Delete emptyManager "file-1"
    = (Some errors.ErrNotFound, emptyManager).
Proof.
  cbv zeta. split.
  - apply (proj1 (Delete_then_Get _ "file-1")). vm_compute. by eexists.
  - apply (proj1 (proj2 (Delete_then_Get emptyManager "file-1"))).
    reflexivity.
Defined.

(** Update overwrites the stored file whenever the two clocks are not
    Concurrent: not only when the incoming clock is later or equal, but
    also when the stored clock is After the incoming one.  Get then
    returns the incoming metadata, and every other ID reads as before. *)
Theorem Update_overwrites_unless_concurrent m meta existing :
  store m !! ID meta = Some existing →
  CompareClock existing (VectorClock meta) ≠ regionmeta.ClockConcurrent →
  (EtcdManager_Update m meta).1 = None ∧
  EtcdManager_Get (EtcdManager_Update m meta).2 (ID meta)
    = (Some meta, None) ∧
  ∀ id, id ≠ ID meta →
    EtcdManager_Get (EtcdManager_Update m meta).2 id = EtcdManager_Get m id.
Proof.
  intros Hm Hrel. rewrite (Update_accepts_ordered m meta existing Hm Hrel).
  simpl. split; [done|]. rewrite Get_lookup. simpl.
  rewrite lookup_insert_eq. split; [done|].
  intros id Hne. rewrite !Get_lookup. simpl. by rewrite lookup_insert_ne.
Qed.

(** A stored file at clock {a:2} is overwritten by an incoming version at
    the older clock {a:1}. *)
Lemma Update_overwrites_unless_concurrent_witness :
  let stored := file "file-1" "new.txt" "/new.txt" (vc [("a", 2)]%N) 9 in
  let stale := file "file-1" "old.txt" "/old.txt" (vc [("a", 1)]%N) 5 in
  let m := with_store emptyManager {[ "file-1" := stored ]} in
  CompareClock stored (VectorClock stale) = regionmeta.ClockAfter ∧
  EtcdManager_Get (EtcdManager_Update m stale).2 "file-1" = (Some stale, None).
Proof.
  cbv zeta. split; [vm_compute; reflexivity|].
  refine (proj1 (proj2 (Update_overwrites_unless_concurrent
            (with_store emptyManager
               {[ "file-1" :=
                    file "file-1" "new.txt" "/new.txt" (vc [("a", 2)]%N) 9 ]})
            (file "file-1" "old.txt" "/old.txt" (vc [("a", 1)]%N) 5)
            (file "file-1" "new.txt" "/new.txt" (vc [("a", 2)]%N) 9) _ _))).
  - vm_compute. reflexivity.
  - vm_compute. discriminate.
Defined.

(** Every file is stored under its own ID: this holds of a new manager
    and is kept by Register, Update and Delete, so what Get returns for an
    ID carries that ID. *)
Theorem manager_keyed_by_ID m meta id :
  keyedByID m →
  keyedByID (EtcdManager_Register m meta).2 ∧
  keyedByID (EtcdManager_Update m meta).2 ∧
  keyedByID (EtcdManager_Delete m id).2 ∧
  (∀ g, (EtcdManager_Get m id).1 = Some g → ID g = id).
Proof.
  intros Hkeyed.
  assert (keyedByID (with_store m (<[ID meta := meta]> (store m)))) as Hins.
  { intros k g. simpl. rewrite lookup_insert_Some.
    intros [[<- <-]|[_ Hk]]; [done|by apply Hkeyed]. }
  split; [|split; [|split]].
  - unfold EtcdManager_Register. by destruct (store m !! ID meta).
  - unfold EtcdManager_Update. destruct (store m !! ID meta); [|done].
    by destruct (decide _).
  - unfold EtcdManager_Delete. destruct (store m !! id) as [stored|]; [|done].
    intros k g. simpl. rewrite lookup_delete_Some. intros [_ Hk].
    by apply Hkeyed.
  - intros g. rewrite Get_lookup.
    destruct (store m !! id) as [g'|] eqn:E; [|done].
    simpl. intros [= <-]. by apply Hkeyed.
Qed.

Lemma manager_keyed_by_ID_witness :
  keyedByID (EtcdManager_Register emptyManager
               (file "file-1" "a.txt" "/a.txt" None 0)).2.
Proof.
  apply (manager_keyed_by_ID emptyManager
           (file "file-1" "a.txt" "/a.txt" None 0) "file-1").
  intros k g. vm_compute. discriminate.
Defined.

End manager_operations.

(** ** The resolver: fork, fallback, repetition *)

Section resolver_operations.
Import conflict fixtures.

Implicit Types (r : Resolver) (c : Conflict) (now : time.Time).

(** Resolve by cases on the strategy in force. *)
Lemma Resolve_cases r c (strategy : Strategy) now :
  let s := if decide (strategy = "") then defaultStrategy r else strategy in
  Resolve r c strategy now =
    if decide (s = StrategyFork) then
      (mkResolution (ID c) s (Some (resolveFork r c)) None now, None,
       with_Status c "resolved")
    else
      (mkResolution (ID c) s (Some (resolveLastWriterWins r c).1)
         (Some (resolveLastWriterWins r c).2) now, None,
       with_Status c "resolved").
Proof.
  cbv zeta. unfold Resolve.
  destruct (resolveLastWriterWins r c) as [w l]. simpl.
  unfold StrategyLWW, StrategyFork.
  repeat case_decide; subst; try done; congruence.
Qed.

(** Resolve with fork rejects nothing and returns a copy of the Remote
    version with ".conflict" appended to Path and Name.  The copy keeps
    everything else of the Remote version, its ID and its clock included,
    and the Local version plays no part in it. *)
Theorem Resolve_fork_renames_remote r c now :
  let out := Resolve r c StrategyFork now in
  let remote := RemoteVersion c in
  ∃ forked,
    Result out.1.1 = Some forked ∧
    Rejected out.1.1 = None ∧
    out.1.2 = None ∧
    Status out.2 = "resolved" ∧
    metadata.Path forked = metadata.Path remote +:+ ".conflict" ∧
    metadata.Name forked = metadata.Name remote +:+ ".conflict" ∧
    metadata.ID forked = metadata.ID remote ∧
    metadata.VectorClock forked = metadata.VectorClock remote ∧
    forked = with_Path_Name remote (metadata.Path forked)
               (metadata.Name forked) ∧
    ∀ local',
      Result (Resolve r (mkConflict (ID c) (FileID c) local' remote
                           (DetectedAt c) (Status c)) StrategyFork now).1.1
      = Some forked.
Proof.
  cbv zeta. rewrite Resolve_cases. simpl. eexists.
  repeat split; reflexivity.
Qed.

(** Every strategy but fork, be it merge, manual or a name the code does
    not know, resolves as last_writer_wins does, the Resolution recording
    the strategy asked for; the empty strategy stands for the resolver's
    default. *)
Theorem Resolve_falls_back_to_LWW r c (strategy : Strategy) now :
  (strategy ≠ "" → strategy ≠ StrategyFork →
     Resolve r c strategy now =
       (mkResolution (ID c) strategy
          (Result (Resolve r c StrategyLWW now).1.1)
          (Rejected (Resolve r c StrategyLWW now).1.1) now,
        None, with_Status c "resolved")) ∧
  Resolve r c "" now = Resolve r c (defaultStrategy r) now.
Proof.
  split.
  - intros Hne Hnf. rewrite !Resolve_cases. cbv zeta.
    rewrite (decide_False (P := strategy = "")) by done.
    rewrite (decide_False (P := strategy = StrategyFork)) by done.
    done.
  - rewrite !Resolve_cases. cbv zeta. simpl.
    destruct (decide (defaultStrategy r = "")) as [->|]; done.
Qed.

Lemma Resolve_falls_back_to_LWW_witness :
  let local := file "file-1" "local.txt" "" None T in
  let remote := file "file-1" "remote.txt" "" None (T + time.Hour) in
  Resolve (NewResolver StrategyFork) (pendingConflict local remote)
    StrategyMerge 9
  = (mkResolution "conflict-1" StrategyMerge (Some remote) (Some local) 9,
     None, with_Status (pendingConflict local remote) "resolved").
Proof.
  cbv zeta.
  rewrite (proj1 (Resolve_falls_back_to_LWW _ _ StrategyMerge 9));
    [|discriminate..].
  vm_compute. reflexivity.
Defined.

(** Resolve never reads the conflict's status and never fails: a conflict
    that was resolved before is resolved again, with the result it would
    have had as a pending one. *)
Theorem Resolve_ignores_status r c (first second : Strategy)
    (t1 t2 : time.Time) :
  let again := Resolve r (Resolve r c first t1).2 second t2 in
  again.1 = (Resolve r c second t2).1 ∧
  again.1.2 = None ∧
  Status again.2 = "resolved" ∧
  is_Some (Result again.1.1).
Proof.
  cbv zeta. rewrite !Resolve_cases. cbv zeta.
  repeat case_decide; simpl; repeat split; by eexists.
Qed.

(** Detect reports a pair in one order exactly when it reports it in the
    other, and never reports a version against itself. *)
Theorem Detect_symmetric r (local remote : metadata.GlobalFileMetadata)
    (stamp stamp' : string) (now now' : time.Time) :
  (is_Some (Detect r local remote stamp now)
     ↔ is_Some (Detect r remote local stamp' now')) ∧
  Detect r local local stamp now = None.
Proof.
  unfold Detect, metadata.CompareClock, regionmeta.CompareClock,
    metadata.VectorClock.
  rewrite (compareClocks_converse
             (regionmeta.VectorClock (metadata.FileMetadata local))
             (regionmeta.VectorClock (metadata.FileMetadata remote))).
  rewrite compareClocks_refl.
  split; [|done].
  destruct (regionmeta.compareClocks _ _); simpl;
    split; intros [? ?]; done || by eexists.
Qed.

End resolver_operations.

(** ** The registry: registration, heartbeats, listings *)

Section registry_operations.
Import registry fixtures.

Implicit Types (r : Registry) (region : RegionInfo) (id : string)
  (status : RegionStatus) (now : time.Time).

Lemma GetRegion_lookup r id :
  GetRegion r id
  = match regions r !! id with
    | Some region => (Some region, None)
    | None => (None, Some errors.ErrNotFound)
    end.
Proof. unfold GetRegion. by destruct (regions r !! id). Qed.

Lemma GetRegion_Some r id region :
  GetRegion r id = (Some region, None) → regions r !! id = Some region.
Proof.
  rewrite GetRegion_lookup. destruct (regions r !! id); [|done].
  by intros [= ->].
Qed.

(** Register stores a region whose ID is free as healthy, whatever state
    it came with, stamped with the three clock readings and otherwise as
    given; the other regions are untouched.  An ID already registered is
    refused with ErrAlreadyExists and the registry stays as it was. *)
Theorem Register_stores_healthy r region (t1 t2 t3 : time.Time) :
  (regions r !! ID region = None →
     (Register r region t1 t2 t3).1 = None ∧
     GetRegion (Register r region t1 t2 t3).2 (ID region)
       = (Some (mkRegionInfo (ID region) (Name region) (Endpoint region)
                  (Location region) (Capacity_ region)
                  (mkRegionStatus "healthy" (SyncLag (Status region))
                     (LoadLevel (Status region)) t3) t1 t2), None) ∧
     ∀ id, id ≠ ID region →
       GetRegion (Register r region t1 t2 t3).2 id = GetRegion r id) ∧
  (is_Some (regions r !! ID region) →
     Register r region t1 t2 t3 = (Some errors.ErrAlreadyExists, r)).
Proof.
  unfold Register. split.
  - intros ->. simpl. split; [done|]. rewrite GetRegion_lookup. simpl.
    rewrite lookup_insert_eq. split; [done|].
    intros id Hne. rewrite !GetRegion_lookup. simpl.
    by rewrite lookup_insert_ne.
  - by intros [g ->].
Qed.

Lemma Register_stores_healthy_witness :
  stateOf registryAtT = Some "healthy" ∧
  Register registryAtT (regionInfo "region-1") (T + 1) (T + 1) (T + 1)
    = (Some errors.ErrAlreadyExists, registryAtT).
Proof.
  split.
  - unfold stateOf, registryAtT.
    destruct (proj1 (Register_stores_healthy NewRegistry
                       (regionInfo "region-1") T T T) eq_refl)
      as (_ & Hget & _).
    apply GetRegion_Some in Hget. cbn [ID regionInfo] in Hget.
    by rewrite Hget.
  - apply (proj2 (Register_stores_healthy registryAtT
                    (regionInfo "region-1") (T + 1) (T + 1) (T + 1))).
    vm_compute. by eexists.
Defined.

(** Heartbeat on a registered region sets LastSeenAt to the current
    instant and replaces the status by the reported one, state included,
    with LastCheckAt the current instant; identity and JoinedAt stay.  On
    an unknown region it answers ErrNotFound and registers nothing. *)
Theorem Heartbeat_overwrites_status r id status (t1 t2 : time.Time) :
  (∀ region, regions r !! id = Some region →
     (Heartbeat r id status t1 t2).1 = None ∧
     GetRegion (Heartbeat r id status t1 t2).2 id
       = (Some (mkRegionInfo (ID region) (Name region) (Endpoint region)
                  (Location region) (Capacity_ region)
                  (mkRegionStatus (State status) (SyncLag status)
                     (LoadLevel status) t2)
                  (JoinedAt region) t1), None) ∧
     ∀ id', id' ≠ id →
       GetRegion (Heartbeat r id status t1 t2).2 id' = GetRegion r id') ∧
  (regions r !! id = None →
     Heartbeat r id status t1 t2 = (Some errors.ErrNotFound, r)).
Proof.
  unfold Heartbeat. split.
  - intros region ->. simpl. split; [done|]. rewrite GetRegion_lookup. simpl.
    rewrite lookup_insert_eq. split; [done|].
    intros id' Hne. rewrite !GetRegion_lookup. simpl.
    by rewrite lookup_insert_ne.
  - by intros ->.
Qed.

Lemma Heartbeat_overwrites_status_witness :
  let status := mkRegionStatus "degraded" 7 0%float 0 in
  stateOf (Heartbeat registryAtT "region-1" status (T + 5) (T + 6)).2
    = Some "degraded" ∧
  Heartbeat registryAtT "region-9" status (T + 5) (T + 6)
    = (Some errors.ErrNotFound, registryAtT).
Proof.
  cbv zeta. split.
  - unfold stateOf.
    assert (is_Some (regions registryAtT !! "region-1")) as [region Hreg]
      by (vm_compute; by eexists).
    destruct (proj1 (Heartbeat_overwrites_status registryAtT "region-1"
                       (mkRegionStatus "degraded" 7 0%float 0) (T + 5) (T + 6))
                region Hreg) as (_ & Hget & _).
    by rewrite (GetRegion_Some _ _ _ Hget).
  - apply (proj2 (Heartbeat_overwrites_status registryAtT "region-9" _ _ _)).
    vm_compute. reflexivity.
Defined.

(** A health check that comes at most sixty seconds after a heartbeat
    leaves the region in the state the heartbeat reported, whatever it
    was before: a heartbeat reporting healthy brings back an offline
    region. *)
Theorem Heartbeat_then_checkHealth r id region status (t1 t2 now : time.Time) :
  regions r !! id = Some region →
  now - t1 <= 60 * time.Second →
  ∃ region',
    regions (checkHealth (Heartbeat r id status t1 t2).2 now) !! id
      = Some region' ∧
    State (Status region') = State status ∧
    LastSeenAt region' = t1.
Proof.
  intros Hreg Hfresh. rewrite checkHealth_lookup.
  unfold Heartbeat. rewrite Hreg. simpl. rewrite lookup_insert_eq. simpl.
  eexists. split; [reflexivity|]. rewrite checkRegion_cases. cbv zeta.
  unfold offlineThreshold, degradedThreshold, time.Minute, time.Second,
    time.Nanosecond in *. simpl.
  rewrite decide_False by lia. rewrite decide_False by lia. done.
Qed.

Lemma Heartbeat_then_checkHealth_witness :
  let offline := checkHealth registryAtT (T + 301 * time.Second) in
  let now := T + 302 * time.Second in
  stateOf offline = Some "offline" ∧
  stateOf (checkHealth
             (Heartbeat offline "region-1"
                (mkRegionStatus "healthy" 0 0%float 0) now now).2
             (now + 30 * time.Second)) = Some "healthy".
Proof.
  cbv zeta. split; [vm_compute; reflexivity|]. unfold stateOf.
  assert (is_Some (regions (checkHealth registryAtT (T + 301 * time.Second))
                     !! "region-1")) as [region Hreg]
    by (vm_compute; by eexists).
  destruct (Heartbeat_then_checkHealth _ "region-1" region
              (mkRegionStatus "healthy" 0 0%float 0)
              (T + 302 * time.Second) (T + 302 * time.Second)
              (T + 302 * time.Second + 30 * time.Second) Hreg)
    as (region' & -> & Hstate & _); [vm_compute; discriminate|].
  simpl. by rewrite Hstate.
Defined.

Lemma checkRegion_idempotent now region :
  checkRegion now (checkRegion now region) = checkRegion now region.
Proof.
  rewrite (checkRegion_cases now region). cbv zeta.
  destruct region as [? ? ? ? ? [st ? ? ?] ? ?]. simpl.
  repeat case_decide; rewrite checkRegion_cases; cbv zeta; simpl;
    repeat case_decide; try done; naive_solver.
Qed.

(** The health check only degrades: a region is healthy after it only if
    it was healthy before, a region that was offline stays offline, and a
    second check at the same instant changes nothing. *)
Theorem checkHealth_never_heals r now id region :
  regions r !! id = Some region →
  ∃ region',
    regions (checkHealth r now) !! id = Some region' ∧
    (State (Status region') = "healthy" →
       State (Status region) = "healthy") ∧
    (State (Status region) = "offline" →
       State (Status region') = "offline") ∧
    checkHealth (checkHealth r now) now = checkHealth r now.
Proof.
  intros Hreg. exists (checkRegion now region).
  split; [by rewrite checkHealth_lookup, Hreg|].
  rewrite checkRegion_cases. cbv zeta.
  destruct region as [? ? ? ? ? [st ? ? ?] ? ?]. simpl.
  split; [|split].
  - repeat case_decide; simpl; try done.
  - intros ->. repeat case_decide; simpl; try done. naive_solver.
  - unfold checkHealth. simpl. f_equal. rewrite <- map_fmap_compose.
    apply map_fmap_ext. intros k x _. apply checkRegion_idempotent.
Qed.

Lemma checkHealth_never_heals_witness :
  let degraded := checkHealth registryAtT (T + 90 * time.Second) in
  stateOf degraded = Some "degraded" ∧
  stateOf (checkHealth degraded (T + 10 * time.Second)) ≠ Some "healthy".
Proof.
  cbv zeta. split; [vm_compute; reflexivity|]. unfold stateOf.
  assert (is_Some (regions (checkHealth registryAtT (T + 90 * time.Second))
                     !! "region-1")) as [region Hreg]
    by (vm_compute; by eexists).
  assert (State (Status region) = "degraded") as Hdeg.
  { revert Hreg. vm_compute. by intros [= <-]. }
  destruct (checkHealth_never_heals _ (T + 10 * time.Second) "region-1"
              region Hreg) as (region' & -> & Hheal & _).
  simpl. intros [= Hst]. apply Hheal in Hst. rewrite Hdeg in Hst.
  discriminate Hst.
Defined.

(** Deregister removes a registered region, after which GetRegion and
    Heartbeat answer ErrNotFound for it and it may register again; the
    other regions are untouched.  An unknown ID is answered with
    ErrNotFound and the registry stays as it was. *)
Theorem Deregister_removes r id :
  (is_Some (regions r !! id) →
     (Deregister r id).1 = None ∧
     GetRegion (Deregister r id).2 id = (None, Some errors.ErrNotFound) ∧
     (∀ status t1 t2,
        Heartbeat (Deregister r id).2 id status t1 t2
        = (Some errors.ErrNotFound, (Deregister r id).2)) ∧
     (∀ region t1 t2 t3, ID region = id →
        (Register (Deregister r id).2 region t1 t2 t3).1 = None) ∧
     ∀ id', id' ≠ id →
       GetRegion (Deregister r id).2 id' = GetRegion r id') ∧
  (regions r !! id = None →
     Deregister r id = (Some errors.ErrNotFound, r)).
Proof.
  unfold Deregister. split.
  - intros [region ->]. simpl. split; [done|].
    rewrite GetRegion_lookup. unfold Heartbeat, Register. simpl.
    rewrite !lookup_delete_eq. split; [done|]. split; [done|]. split.
    + intros region' t1 t2 t3 ->. simpl. by rewrite lookup_delete_eq.
    + intros id' Hne. rewrite !GetRegion_lookup. simpl.
      by rewrite lookup_delete_ne.
  - by intros ->.
Qed.

Lemma Deregister_removes_witness :
  GetRegion (Deregister registryAtT "region-1").2 "region-1"
    = (None, Some errors.ErrNotFound) ∧
  Deregister registryAtT "region-9" = (Some errors.ErrNotFound, registryAtT).
Proof.
  split.
  - apply (proj1 (Deregister_removes registryAtT "region-1")).
    vm_compute. by eexists.
  - apply (proj2 (Deregister_removes registryAtT "region-9")).
    vm_compute. reflexivity.
Defined.

Lemma elem_of_rangeRegions r region :
  region ∈ rangeRegions r ↔ ∃ id, regions r !! id = Some region.
Proof.
  unfold rangeRegions. rewrite list_elem_of_fmap. split.
  - intros ([id x] & -> & Hin%elem_of_map_to_list). by exists id.
  - intros [id Hid]. exists (id, region). split; [done|].
    by apply elem_of_map_to_list.
Qed.

(** GetActiveRegions lists exactly the registered regions whose state is
    not offline, GetHealthyRegions exactly those whose state is healthy,
    so every healthy region is active; neither fails.  After a health
    check no listed active region was last seen more than five minutes
    before it. *)
Theorem listed_regions r :
  (∀ region, region ∈ (GetActiveRegions r).1
     ↔ (∃ id, regions r !! id = Some region) ∧
       State (Status region) ≠ "offline") ∧
  (∀ region, region ∈ (GetHealthyRegions r).1
     ↔ (∃ id, regions r !! id = Some region) ∧
       State (Status region) = "healthy") ∧
  (GetHealthyRegions r).1 ⊆ (GetActiveRegions r).1 ∧
  (GetActiveRegions r).2 = None ∧ (GetHealthyRegions r).2 = None ∧
  ∀ now region,
    region ∈ (GetActiveRegions (checkHealth r now)).1 →
    now - LastSeenAt region <= 5 * time.Minute.
Proof.
  assert (∀ r region, region ∈ (GetActiveRegions r).1
     ↔ (∃ id, regions r !! id = Some region) ∧
       State (Status region) ≠ "offline") as Hactive.
  { intros r' region. unfold GetActiveRegions. simpl.
    rewrite list_elem_of_filter, elem_of_rangeRegions. tauto. }
  assert (∀ region, region ∈ (GetHealthyRegions r).1
     ↔ (∃ id, regions r !! id = Some region) ∧
       State (Status region) = "healthy") as Hhealthy.
  { intros region. unfold GetHealthyRegions. simpl.
    rewrite list_elem_of_filter, elem_of_rangeRegions. tauto. }
  split; [apply Hactive|]. split; [apply Hhealthy|]. split.
  { intros region [Hreg Hst]%Hhealthy. apply Hactive. split; [done|].
    by rewrite Hst. }
  split; [done|]. split; [done|].
  intros now region [[id Hid] Hst]%Hactive.
  rewrite checkHealth_lookup in Hid.
  destruct (regions r !! id) as [before|]; [|done].
  simpl in Hid. injection Hid as <-.
  rewrite checkRegion_cases in Hst |- *. cbv zeta in *.
  unfold offlineThreshold in *.
  destruct before as [? ? ? ? ? [st ? ? ?] ? ?]. simpl in *.
  repeat case_decide; simpl in *; try done; lia.
Qed.

(** TestRegistry_HealthCheck: three regions registered, all active and
    healthy; two active once one is deregistered. *)
Example listed_regions_test :
  let r1 := (Register NewRegistry (regionInfo "a-region") T T T).2 in
  let r2 := (Register r1 (regionInfo "b-region") T T T).2 in
  let r3 := (Register r2 (regionInfo "c-region") T T T).2 in
  length (GetActiveRegions r3).1 = 3%nat ∧
  length (GetHealthyRegions r3).1 = 3%nat ∧
  length (GetActiveRegions (Deregister r3 "a-region").2).1 = 2%nat.
Proof. vm_compute. done. Qed.

End registry_operations.

(** ** The sync engine: what is queued, for whom, in which order *)

Section engine_operations.
Import coordsync fixtures.
Context {M : Type} `{!metadata.Manager M}.

Implicit Types (e : Engine M) (event : ChangeEvent) (id : string)
  (now : time.Time).

Lemma HandleChange_config e event :
  config (HandleChange e event).2 = config e.
Proof.
  unfold HandleChange.
  destruct (applyChange (metaManager e) event) as [[err|] m]; simpl; [done|].
  by destruct (decide _).
Qed.

Lemma HandleChange_rejected e event err :
  (applyChange (metaManager e) event).1 = Some err →
  HandleChange e event
  = (Some err, with_metaManager e (applyChange (metaManager e) event).2).
Proof.
  intros Herr. unfold HandleChange.
  destruct (applyChange (metaManager e) event) as [[err'|] m]; simpl in *;
    [|done].
  by injection Herr as ->.
Qed.

(** HandleChange queues nothing unless the strategy is eager and the
    metadata call succeeded: under lazy, on_demand or any other strategy,
    and for every change the manager rejects, all pending lists stay as
    they were, so a later GetPendingChanges delivers nothing of it.  The
    error returned is the manager's. *)
Theorem HandleChange_queues_only_eager_success e event :
  DefaultStrategy (config e) ≠ "eager" ∨
  (applyChange (metaManager e) event).1 ≠ None →
  regions (HandleChange e event).2 = regions e ∧
  (HandleChange e event).1 = (applyChange (metaManager e) event).1 ∧
  ∀ id now,
    (GetPendingChanges (HandleChange e event).2 id now).1
    = (GetPendingChanges e id now).1.
Proof.
  intros Hcase.
  assert (regions (HandleChange e event).2 = regions e) as Hregions.
  { destruct Hcase as [Hlazy|Hrej]; [by apply HandleChange_not_eager|].
    destruct (applyChange (metaManager e) event).1 as [err|] eqn:E; [|done].
    by rewrite (HandleChange_rejected e event err E). }
  split; [done|]. split; [apply HandleChange_error|].
  intros id now. unfold GetPendingChanges. rewrite Hregions.
  by destruct (regions e !! id).
Qed.

(** RegisterRegion gives the region an empty pending list, synced at the
    current instant, also when the region was registered before: what was
    pending for it is discarded.  The other regions are untouched. *)
Theorem RegisterRegion_resets e id now :
  regions (RegisterRegion e id now) !! id
    = Some (mkRegionState id "" now []) ∧
  (GetPendingChanges (RegisterRegion e id now) id now).1 = (Some [], None) ∧
  (∀ id', id' ≠ id →
     regions (RegisterRegion e id now) !! id' = regions e !! id') ∧
  metaManager (RegisterRegion e id now) = metaManager e.
Proof.
  unfold RegisterRegion, GetPendingChanges. simpl.
  rewrite lookup_insert_eq. repeat split.
  intros id' Hne. by rewrite lookup_insert_ne.
Qed.

(** UnregisterRegion forgets the region with what was pending for it: its
    next GetPendingChanges returns the nil slice and changes nothing, and
    no later HandleChange queues anything for it.  The other regions are
    untouched. *)
Theorem UnregisterRegion_forgets e id :
  regions (UnregisterRegion e id) !! id = None ∧
  (∀ now, GetPendingChanges (UnregisterRegion e id) id now
          = (None, None, UnregisterRegion e id)) ∧
  (∀ event, regions (HandleChange (UnregisterRegion e id) event).2 !! id
            = None) ∧
  (∀ id', id' ≠ id →
     regions (UnregisterRegion e id) !! id' = regions e !! id').
Proof.
  assert (regions (UnregisterRegion e id) !! id = None) as Hgone
    by apply lookup_delete_eq.
  split; [done|]. split; [|split].
  - intros now. by apply GetPendingChanges_unregistered.
  - intros event. unfold HandleChange.
    destruct (applyChange _ event) as [[err|] m]; simpl; [done|].
    destruct (decide _); simpl; [|done].
    rewrite map_lookup_imap. simpl.
    by rewrite lookup_delete_eq.
  - intros id' Hne. unfold UnregisterRegion. simpl.
    by rewrite lookup_delete_ne.
Qed.

(** Under the eager strategy two changes accepted one after the other are
    delivered to a region in that order, behind what was pending already
    and without the changes that came from the region itself. *)
Theorem HandleChange_keeps_order e (first second : ChangeEvent) id state now :
  DefaultStrategy (config e) = "eager" →
  (applyChange (metaManager e) first).1 = None →
  (applyChange (metaManager (HandleChange e first).2) second).1 = None →
  regions e !! id = Some state →
  (GetPendingChanges (HandleChange (HandleChange e first).2 second).2 id now).1
  = (Some (PendingEvents state
           ++ filter (λ event, RegionID event ≠ id) [first; second]), None).
Proof.
  intros Heager Hok1 Hok2 Hstate.
  assert (DefaultStrategy (config (HandleChange e first).2) = "eager")
    as Heager2 by (by rewrite HandleChange_config).
  assert (∀ e' event, DefaultStrategy (config e') = "eager" →
            (applyChange (metaManager e') event).1 = None →
            regions (HandleChange e' event).2 !! id
            = queueFor event id <$> regions e' !! id) as Hstep.
  { intros e' event He Hok. rewrite (HandleChange_eager e' event He Hok).
    cbn [snd]. by rewrite broadcastChange_lookup. }
  unfold GetPendingChanges.
  rewrite (Hstep _ second Heager2 Hok2), (Hstep e first Heager Hok1), Hstate.
  simpl. f_equal. f_equal. unfold queueFor.
  rewrite !filter_cons, filter_nil.
  repeat case_decide; simpl; try congruence;
    by rewrite <- ?app_assoc, ?app_nil_r.
Qed.

(** An event whose type is none of CREATE, UPDATE and DELETE is accepted
    without a call to the manager, and under the eager strategy it is
    queued like any other. *)
Theorem HandleChange_unknown_type e event :
  Type_ event ≠ "CREATE" → Type_ event ≠ "UPDATE" → Type_ event ≠ "DELETE" →
  (HandleChange e event).1 = None ∧
  metaManager (HandleChange e event).2 = metaManager e ∧
  (DefaultStrategy (config e) = "eager" →
     ∀ id state, regions e !! id = Some state → id ≠ RegionID event →
       regions (HandleChange e event).2 !! id
       = Some (mkRegionState (RegionID_ state) (LastEventID state)
                 (LastSyncAt state) (PendingEvents state ++ [event]))).
Proof.
  intros Hc Hu Hd.
  assert (applyChange (metaManager e) event = (None, metaManager e)) as Happly.
  { unfold applyChange. by rewrite !decide_False. }
  unfold HandleChange. rewrite Happly.
  destruct (decide _) as [Heager|Hno]; simpl.
  - split; [done|]. split; [done|]. intros _ id state Hstate Hne.
    rewrite map_lookup_imap. simpl. rewrite Hstate. simpl.
    unfold queueFor. by rewrite decide_False.
  - split; [done|]. split; [done|]. done.
Qed.

End engine_operations.

Section engine_operations_tests.
Import coordsync fixtures.

Lemma HandleChange_queues_only_eager_success_witness :
  let rejected := HandleChange (HandleChange eagerEngine createEvent).2
                    createEvent in
  rejected.1 = Some errors.ErrAlreadyExists ∧
  regions rejected.2 = regions (HandleChange eagerEngine createEvent).2.
Proof.
  cbv zeta.
  destruct (HandleChange_queues_only_eager_success
              (HandleChange eagerEngine createEvent).2 createEvent)
    as (Hregions & Herr & _).
  - right. vm_compute. discriminate.
  - split; [|exact Hregions]. rewrite Herr. vm_compute. reflexivity.
Defined.

(** A CREATE and then a DELETE, both from region-a: region-b is handed
    the two in that order, region-a neither. *)
Lemma HandleChange_keeps_order_witness :
  let second := mkChangeEvent "event-2" "DELETE" "file-1" (metadata.zero)
                  None 0 "region-a" in
  let e := (HandleChange (HandleChange eagerEngine createEvent).2 second).2 in
  (GetPendingChanges e "region-b" 9).1 = (Some [createEvent; second], None) ∧
  (GetPendingChanges e "region-a" 9).1 = (Some [], None).
Proof.
  cbv zeta. split.
  - rewrite (HandleChange_keeps_order eagerEngine createEvent _ "region-b"
               (mkRegionState "region-b" "" 2 []) 9);
      [vm_compute; reflexivity | reflexivity | vm_compute; reflexivity..].
  - rewrite (HandleChange_keeps_order eagerEngine createEvent _ "region-a"
               (mkRegionState "region-a" "" 1 []) 9);
      [vm_compute; reflexivity | reflexivity | vm_compute; reflexivity..].
Defined.

Lemma HandleChange_unknown_type_witness :
  let odd := mkChangeEvent "event-3" "RENAME" "file-1" (metadata.zero)
               None 0 "region-a" in
  (HandleChange eagerEngine odd).1 = None ∧
  (PendingEvents <$> regions (HandleChange eagerEngine odd).2 !! "region-b")
    = Some [odd].
Proof.
  cbv zeta.
  destruct (HandleChange_unknown_type eagerEngine
              (mkChangeEvent "event-3" "RENAME" "file-1" (metadata.zero)
                 None 0 "region-a"))
    as (Herr & _ & Hqueue); [discriminate..|].
  split; [exact Herr|].
  rewrite (Hqueue eq_refl "region-b" (mkRegionState "region-b" "" 2 []));
    [reflexivity | vm_compute; reflexivity | discriminate].
Defined.

(** Pending events of a region registered a second time are gone. *)
Example RegisterRegion_discards_pending :
  let e := (HandleChange eagerEngine createEvent).2 in
  (PendingEvents <$> regions e !! "region-b") = Some [createEvent] ∧
  (PendingEvents <$> regions (RegisterRegion e "region-b" 5) !! "region-b")
    = Some [].
Proof. vm_compute. done. Qed.

End engine_operations_tests.

(** ** The change queue and the agent: batches, capacity, queueing *)

Section queue_operations.
Import regionsync fixtures.

Implicit Types (q : ChangeQueue) (event : ChangeEvent) (a : Agent) (n : Z).

Lemma PopN_nonneg q n :
  0 <= n →
  PopN q n =
    Some (match items q with
          | [] => None
          | _ => Some (take (Z.to_nat n) (items q))
          end,
          mkChangeQueue (drop (Z.to_nat n) (items q)) (maxSize q)).
Proof.
  intros Hn. unfold PopN, Len.
  destruct (items q) as [|first rest] eqn:Hitems.
  - rewrite drop_nil. destruct q; simpl in *. by subst.
  - cbv zeta.
    destruct (decide (n > Z.of_nat (length (first :: rest)))) as [Hmore|Hless].
    + rewrite (bool_decide_eq_true_2 _ Hmore).
      rewrite bool_decide_eq_false_2 by lia. rewrite Nat2Z.id.
      rewrite firstn_all, drop_all.
      rewrite take_ge, drop_ge by lia. done.
    + rewrite (bool_decide_eq_false_2 _ Hless).
      rewrite bool_decide_eq_false_2 by lia. done.
Qed.

(** For n at least 0, PopN removes the oldest n events, or all of them if
    there are fewer, and returns them oldest first: what it returns
    followed by what it leaves is the queue as it was.  On an empty queue
    it returns nil; PopN(1) pops what Pop pops.  For a negative n it
    panics unless the queue is empty. *)
Theorem PopN_takes_oldest q n :
  (0 <= n →
     ∃ popped q',
       PopN q n = Some (popped, q') ∧
       default [] popped = take (Z.to_nat n) (items q) ∧
       items q' = drop (Z.to_nat n) (items q) ∧
       default [] popped ++ items q' = items q ∧
       length (default [] popped)
         = Nat.min (Z.to_nat n) (length (items q)) ∧
       maxSize q' = maxSize q ∧
       (popped = None ↔ items q = [])) ∧
  (∀ first rest, items q = first :: rest →
     PopN q 1 = Some (Some [first], (Pop q).2) ∧ (Pop q).1 = Some first) ∧
  (n < 0 → (PopN q n = None ↔ items q ≠ [])).
Proof.
  split; [|split].
  - intros Hn. rewrite (PopN_nonneg q n Hn). do 2 eexists.
    split; [reflexivity|]. simpl.
    assert (default [] (match items q with
                        | [] => None
                        | _ => Some (take (Z.to_nat n) (items q))
                        end) = take (Z.to_nat n) (items q)) as ->.
    { destruct (items q); [by rewrite take_nil|done]. }
    split; [done|]. split; [done|]. split; [apply take_drop|].
    split; [apply length_take|]. split; [done|].
    destruct (items q); split; done.
  - intros first rest Hitems. rewrite PopN_nonneg by lia.
    unfold Pop. rewrite Hitems. simpl. done.
  - intros Hneg. unfold PopN, Len. destruct (items q) as [|first rest].
    + split; [done|]. by intros [].
    + rewrite (bool_decide_eq_false_2 (n > _)) by lia.
      rewrite bool_decide_eq_true_2 by lia. done.
Qed.

(** The PopN and "PopN more than available" cases of TestChangeQueue. *)
Lemma PopN_takes_oldest_witness :
  let e1 := regionEvent "a" 0 in
  let e2 := regionEvent "b" 0 in
  let e3 := regionEvent "c" 0 in
  let q := mkChangeQueue [e1; e2; e3] 5 in
  PopN q 2 = Some (Some [e1; e2], mkChangeQueue [e3] 5) ∧
  PopN (mkChangeQueue [e3] 5) 10 = Some (Some [e3], mkChangeQueue [] 5) ∧
  PopN q (-1) = None.
Proof.
  cbv zeta.
  set (q := mkChangeQueue [regionEvent "a" 0; regionEvent "b" 0;
                           regionEvent "c" 0] 5).
  destruct (proj1 (PopN_takes_oldest q 2) ltac:(lia))
    as (popped & q' & -> & Htake & Hdrop & _ & _ & Hmax & Hnil).
  split; [|split].
  - destruct popped as [events|]; [|by apply proj1 in Hnil; specialize (Hnil eq_refl)].
    destruct q' as [left cap]. simpl in *. by subst.
  - vm_compute. reflexivity.
  - apply (proj2 (proj2 (PopN_takes_oldest q (-1))) ltac:(lia)). discriminate.
Defined.

Lemma Len_nonneg q : 0 <= Len q.
Proof. unfold Len. lia. Qed.

(** Every operation keeps the queue within its capacity: Push, Pop, PopN
    and Clear, and with them the two operations of the agent that push,
    QueueChange and handleSyncError. *)
Theorem queue_stays_within_capacity q :
  withinCapacity q →
  (∀ event, withinCapacity (Push q event).2) ∧
  withinCapacity (Pop q).2 ∧
  (∀ n popped q', PopN q n = Some (popped, q') → withinCapacity q') ∧
  withinCapacity (Clear q) ∧
  (∀ a changeType meta stamp (now : time.Time), queue a = q →
     withinCapacity (queue (QueueChange a changeType meta stamp now))) ∧
  (∀ a event err, queue a = q →
     withinCapacity (queue (handleSyncError a event err).1)).
Proof.
  unfold withinCapacity. intros Hcap.
  assert (∀ event, Len (Push q event).2 <= maxSize (Push q event).2) as Hpush.
  { intros event. unfold Push. case_bool_decide; [done|].
    unfold Len in *. simpl. rewrite length_app. simpl. lia. }
  split; [done|]. split; [|split; [|split; [|split]]].
  - unfold Pop. destruct (items q) as [|first rest] eqn:Hitems; [done|].
    revert Hcap. unfold Len. rewrite Hitems. cbn [snd items maxSize length].
    lia.
  - intros n popped q'. unfold PopN.
    destruct (items q) as [|first rest] eqn:Hitems.
    + by intros [= _ <-].
    + destruct (bool_decide (_ < 0)); [done|]. intros [= _ <-].
      revert Hcap. unfold Len. cbn [items maxSize]. rewrite Hitems.
      rewrite length_drop. lia.
  - pose proof (Len_nonneg q). unfold Clear, Len in *. simpl. lia.
  - intros a changeType meta stamp now <-. unfold QueueChange.
    match goal with |- context [Push (queue a) ?ev] =>
      specialize (Hpush ev); destruct (Push (queue a) ev) as [[err|] q']
    end; done.
  - intros a event err <-. rewrite handleSyncError_cases. cbv zeta.
    case_bool_decide; simpl; [apply Hpush|done].
Qed.

Lemma queue_stays_within_capacity_witness :
  withinCapacity (Push (mkChangeQueue [regionEvent "1" 0] 1)
                    (regionEvent "2" 0)).2.
Proof.
  assert (withinCapacity (mkChangeQueue [regionEvent "1" 0] 1)) as Hcap
    by (vm_compute; discriminate).
  apply (proj1 (queue_stays_within_capacity _ Hcap)).
Defined.

(** QueueChange puts at the tail of the queue an event that carries the
    metadata, its ID and its clock, the region of the agent and no failed
    attempt.  When the queue is full it leaves the queue as it was and
    logs the refusal at error level. *)
Theorem QueueChange_enqueues_or_reports a (changeType : ChangeType)
    (meta : regionmeta.FileMetadata) (stamp : string) (now : time.Time) :
  let event := mkChangeEvent stamp changeType (regionmeta.ID meta) meta
                 (regionmeta.VectorClock meta) now (RegionID_ (config a)) 0 in
  (Len (queue a) < maxSize (queue a) →
     QueueChange a changeType meta stamp now
     = mkAgent (config a)
         (mkChangeQueue (items (queue a) ++ [event]) (maxSize (queue a)))
         (logged a)) ∧
  (Len (queue a) >= maxSize (queue a) →
     QueueChange a changeType meta stamp now
     = mkAgent (config a) (queue a)
         (logged a ++ [queueFailedEntry errors.ErrQueueFull])).
Proof.
  cbv zeta. unfold QueueChange, generateEventID. split; intros Hlen.
  - by rewrite Push_room.
  - by rewrite Push_full.
Qed.

Lemma QueueChange_enqueues_or_reports_witness :
  let meta := regionmeta.NewFileMetadata "file-1" "a.txt" "/a.txt" T in
  let a := agentHolding [] in
  let full := with_queue a (mkChangeQueue [regionEvent "event-2" 0] 1) in
  (Pop (queue (QueueChange a ChangeTypeCreate meta "s" T))).1
    = Some (mkChangeEvent "s" "CREATE" "file-1" meta (Some ∅) T "region-a" 0) ∧
  logged (QueueChange full ChangeTypeCreate meta "s" T)
    = [queueFailedEntry errors.ErrQueueFull].
Proof.
  cbv zeta. split.
  - rewrite (proj1 (QueueChange_enqueues_or_reports (agentHolding [])
                      ChangeTypeCreate _ "s" T));
      [reflexivity | vm_compute; reflexivity].
  - rewrite (proj2 (QueueChange_enqueues_or_reports
                      (with_queue (agentHolding [])
                         (mkChangeQueue [regionEvent "event-2" 0] 1))
                      ChangeTypeCreate _ "s" T));
      [reflexivity | vm_compute; discriminate].
Defined.

(** syncEach logs one debug entry per event and touches neither the queue
    nor the configuration: syncEvent never fails. *)
Lemma syncEach_logs a (events : list ChangeEvent) :
  syncEach a events
  = mkAgent (config a) (queue a) (logged a ++ (syncingEntry <$> events)).
Proof.
  revert a. induction events as [|event rest IH]; intros a; simpl.
  - rewrite app_nil_r. by destruct a.
  - rewrite IH. simpl. by rewrite <- app_assoc.
Qed.

(** With a batch size of at least 0, syncBatch takes the oldest BatchSize
    events off the queue, or all of them if there are fewer, and puts none
    back: the transmission being a stub that cannot fail, it logs them at
    debug level only, one entry for the batch and one per event, oldest
    first.  On an empty queue it does nothing. *)
Theorem syncBatch_drains a :
  0 <= BatchSize (config a) →
  let batch := take (Z.to_nat (BatchSize (config a))) (items (queue a)) in
  ∃ a',
    syncBatch a = Some a' ∧
    config a' = config a ∧
    items (queue a') = drop (Z.to_nat (BatchSize (config a))) (items (queue a)) ∧
    maxSize (queue a') = maxSize (queue a) ∧
    logged a' =
      logged a ++
      match batch with
      | [] => []
      | _ => mkEntry DebugLevel "syncing batch"
               [zap_Int "count" (Z.of_nat (length batch))]
             :: (syncingEntry <$> batch)
      end.
Proof.
  intros Hsize. cbv zeta. unfold syncBatch.
  rewrite (PopN_nonneg _ _ Hsize).
  set (n := Z.to_nat (BatchSize (config a))).
  destruct (items (queue a)) as [|first rest] eqn:Hitems; simpl.
  - rewrite take_nil, drop_nil. simpl. eexists. split; [reflexivity|].
    simpl. repeat split. symmetry. apply app_nil_r.
  - destruct (take n (first :: rest)) as [|b batch] eqn:Htake; simpl.
    + eexists. split; [reflexivity|]. simpl. repeat split.
      symmetry. apply app_nil_r.
    + rewrite syncEach_logs. simpl. eexists. split; [reflexivity|]. simpl.
      repeat split. rewrite <- !app_assoc. reflexivity.
Qed.

Lemma syncBatch_drains_witness :
  let e1 := regionEvent "a" 0 in
  let e2 := regionEvent "b" 0 in
  let e3 := regionEvent "c" 0 in
  let a := with_queue
             (NewAgent (mkAgentConfig "region-a" "batch" 2 0 0 3))
             (mkChangeQueue [e1; e2; e3] 10000) in
  (items ∘ queue <$> syncBatch a) = Some [e3].
Proof.
  cbv zeta.
  set (a := with_queue (NewAgent (mkAgentConfig "region-a" "batch" 2 0 0 3))
              (mkChangeQueue [regionEvent "a" 0; regionEvent "b" 0;
                              regionEvent "c" 0] 10000)).
  destruct (syncBatch_drains a ltac:(vm_compute; discriminate))
    as (a' & -> & _ & Hitems & _).
  simpl. by rewrite Hitems.
Defined.

End queue_operations.
